(** * King Arthur jobs: a shallow embedding of [arthur/jobs.py]

    The module wraps one Perceval backend in a resumable job.  A job pulls
    items from the backend, tags each of them, appends it to a Redis queue
    and keeps a [JobResult] up to date; [execute_perceval_job] restarts a
    failed job from that record while the retry budget lasts.

    Python objects are embedded as follows.
    - Dynamically typed scalars are the constructors of [value]; the
      timestamps Perceval stores under ['updated_on'] are numbers, embedded
      as integers (ordering and the falsity of zero are those of Python
      numbers).
    - A [dict] with string keys is a [gmap string value].
    - Exceptions are values of [exn]; a computation either returns or
      raises ([outcome]), and the mutations made before a raise persist.
    - A generator is the finite sequence of items it yields, closed by its
      normal end or by the exception it raises ([gen]).
    - Dictionaries that are passed by reference live in a store of objects
      ([objs]) and are named by their address.
    - The Redis connection is the log of its [rpush] calls; it is taken
      to accept every append (an error of the connection or of
      [pickle.dumps] at line 181 is outside the embedding). *)

From Stdlib Require Import ZArith Lia String.
From stdpp Require Import base option list strings gmap.

Local Open Scope string_scope.
Local Open Scope Z_scope.
Local Open Scope list_scope.

(** ** Python values *)

Inductive value : Type :=
| VNone
| VBool (b : bool)
| VInt (z : Z)
| VStr (s : string)
| VDatetime (z : Z).

#[global] Instance value_eq_dec : EqDecision value.
Proof. solve_decision. Defined.

Abbreviation dict := (gmap string value).

(** Subclasses of [Exception] that the module raises or lets through.
    [AttributeError] stands for the class and its subclasses, as
    [except AttributeError] does; [OtherError] is any other exception class
    of a collaborator (connection errors, [InvalidDateError], ...). *)
Inductive exn : Type :=
| AttributeError (msg : string)
| ValueError (msg : string)
| KeyError (key : string)
| TypeError (msg : string)
| NotFoundError (element : string)
| OtherError (name : string).

#[global] Instance exn_eq_dec : EqDecision exn.
Proof. solve_decision. Defined.

Definition is_attribute_error (e : exn) : bool :=
  match e with
  | AttributeError _ => true
  | _ => false
  end.

Inductive outcome (A : Type) : Type :=
| Returned (a : A)
| Raised (e : exn).
Arguments Returned {A} a.
Arguments Raised {A} e.

(** [bool(v)] *)
Definition truthy (v : value) : bool :=
  match v with
  | VNone => false
  | VBool b => b
  | VInt z => negb (z =? 0)
  | VStr s => negb (String.eqb s EmptyString)
  | VDatetime _ => true
  end.

(** Truth value of an optional dictionary argument: [None] and [{}] are
    false. *)
Definition truthy_dict (d : option dict) : bool :=
  match d with
  | None => false
  | Some m => negb (bool_decide (m = ∅))
  end.

(** Numbers; [bool] is a subclass of [int]. *)
Definition as_number (v : value) : option Z :=
  match v with
  | VInt z => Some z
  | VBool b => Some (if b then 1 else 0)
  | _ => None
  end.

Definition unorderable : exn :=
  TypeError "comparison not supported between these instances".

(** [a < b] *)
Definition py_lt (a b : value) : outcome bool :=
  match a, b with
  | VStr s, VStr t => Returned (String.ltb s t)
  | VDatetime x, VDatetime y => Returned (x <? y)
  | _, _ =>
      match as_number a, as_number b with
      | Some x, Some y => Returned (x <? y)
      | _, _ => Raised unorderable
      end
  end.

(** [a >= b] *)
Definition py_ge (a b : value) : outcome bool :=
  match a, b with
  | VStr s, VStr t => Returned (String.leb t s)
  | VDatetime x, VDatetime y => Returned (x >=? y)
  | _, _ =>
      match as_number a, as_number b with
      | Some x, Some y => Returned (x >=? y)
      | _, _ => Raised unorderable
      end
  end.

(** [d[k]] *)
Definition getitem (d : dict) (k : string) : outcome value :=
  match d !! k with
  | Some v => Returned v
  | None => Raised (KeyError k)
  end.

(** [d[k]] where [d] may be [None] *)
Definition subscript (d : option dict) (k : string) : outcome value :=
  match d with
  | Some m => getitem m k
  | None => Raised (TypeError "'NoneType' object is not subscriptable")
  end.

(** ** Generators *)

Inductive gen : Type :=
| GDone
| GRaise (e : exn)
| GYield (item : dict) (rest : gen).

(** The generator that yields [items] and then behaves as [tail]. *)
Fixpoint gen_of (items : list dict) (tail : gen) : gen :=
  match items with
  | [] => tail
  | item :: items' => GYield item (gen_of items' tail)
  end.

Fixpoint gen_items (g : gen) : list dict :=
  match g with
  | GYield item rest => item :: gen_items rest
  | _ => []
  end.

Fixpoint gen_end (g : gen) : option exn :=
  match g with
  | GDone => None
  | GRaise e => Some e
  | GYield _ rest => gen_end rest
  end.

(** ** Collaborators *)

(** [perceval.archive.ArchiveManager(dirpath)] *)
Inductive archive_manager : Type :=
| ArchiveManager (dirpath : value).

(** A backend class of Perceval: its two capability flags and what its
    fetch operations produce.  The first argument of an operation is the
    number of fetches made before it, so that a source may fail on one
    attempt and answer on the next. *)
Record bklass : Type := {
  has_archiving_flag : bool;
  has_resuming_flag : bool;
  fetch : nat -> dict -> option archive_manager -> gen;
  fetch_from_archive :
    nat -> dict -> option archive_manager -> value -> value -> gen
}.

(** What the module imports: its own version string, the conversion of
    [grimoirelab.toolkit.datetime] and the table of
    [perceval.find_backends(perceval.backends)[0]]. *)
Class Imports : Type := {
  __version__ : string;
  unixtime_to_datetime : value -> outcome value;
  find_backends : gmap string bklass
}.

(** ** [JobResult] *)

Record JobResult : Type := {
  job_id : value;
  task_id : value;
  backend : string;
  category : value;
  last_uuid : value;
  max_date : value;
  nitems : Z;
  offset : value;
  nresumed : Z
}.

Definition set_last_uuid (v : value) (r : JobResult) : JobResult :=
  {| job_id := job_id r; task_id := task_id r; backend := backend r;
     category := category r; last_uuid := v; max_date := max_date r;
     nitems := nitems r; offset := offset r; nresumed := nresumed r |}.

Definition set_max_date (v : value) (r : JobResult) : JobResult :=
  {| job_id := job_id r; task_id := task_id r; backend := backend r;
     category := category r; last_uuid := last_uuid r; max_date := v;
     nitems := nitems r; offset := offset r; nresumed := nresumed r |}.

Definition set_nitems (n : Z) (r : JobResult) : JobResult :=
  {| job_id := job_id r; task_id := task_id r; backend := backend r;
     category := category r; last_uuid := last_uuid r;
     max_date := max_date r; nitems := n; offset := offset r;
     nresumed := nresumed r |}.

Definition set_offset (v : value) (r : JobResult) : JobResult :=
  {| job_id := job_id r; task_id := task_id r; backend := backend r;
     category := category r; last_uuid := last_uuid r;
     max_date := max_date r; nitems := nitems r; offset := v;
     nresumed := nresumed r |}.

Definition set_nresumed (n : Z) (r : JobResult) : JobResult :=
  {| job_id := job_id r; task_id := task_id r; backend := backend r;
     category := category r; last_uuid := last_uuid r;
     max_date := max_date r; nitems := nitems r; offset := offset r;
     nresumed := n |}.

(** ** [PercevalJob] *)

Record PercevalJob : Type := {
  _bklass : bklass;
  pj_job_id : value;
  pj_task_id : value;
  pj_backend : string;
  qitems : string;
  retries : Z;
  archive_manager_of : option archive_manager;
  pj_category : value;
  _result : JobResult
}.

Definition with_result (r : JobResult) (j : PercevalJob) : PercevalJob :=
  {| _bklass := _bklass j; pj_job_id := pj_job_id j;
     pj_task_id := pj_task_id j; pj_backend := pj_backend j;
     qitems := qitems j; retries := retries j;
     archive_manager_of := archive_manager_of j;
     pj_category := pj_category j; _result := r |}.

Definition with_archive_manager (m : option archive_manager)
    (j : PercevalJob) : PercevalJob :=
  {| _bklass := _bklass j; pj_job_id := pj_job_id j;
     pj_task_id := pj_task_id j; pj_backend := pj_backend j;
     qitems := qitems j; retries := retries j;
     archive_manager_of := m;
     pj_category := pj_category j; _result := _result j |}.

(** The record a job starts from: the constructor call of lines 124-126,
    repeated at lines 170-172. *)
Definition fresh_result (j : PercevalJob) : JobResult :=
  {| job_id := pj_job_id j; task_id := pj_task_id j;
     backend := pj_backend j; category := pj_category j;
     last_uuid := VNone; max_date := VNone; nitems := 0;
     offset := VNone; nresumed := 0 |}.

(** ** The world outside the job *)

Inductive fetch_mode : Type := Live | FromArchive.

Record fetch_call : Type := {
  fc_mode : fetch_mode;
  fc_args : dict;
  fc_manager : option archive_manager
}.

(** One invocation of [PercevalJob.run]: the dictionary it was given (by
    address, with its contents at that moment), the archive arguments and
    the [resume] flag. *)
Record run_call : Type := {
  rc_backend_args : nat;
  rc_contents : option dict;
  rc_archive_args : option dict;
  rc_resume : bool
}.

Record world : Type := {
  objs : list dict;
  queue : list (string * dict);
  fetches : list fetch_call;
  runs : list run_call
}.

Definition with_objs (o : list dict) (w : world) : world :=
  {| objs := o; queue := queue w; fetches := fetches w; runs := runs w |}.

Definition with_queue (q : list (string * dict)) (w : world) : world :=
  {| objs := objs w; queue := q; fetches := fetches w; runs := runs w |}.

Definition with_fetches (f : list fetch_call) (w : world) : world :=
  {| objs := objs w; queue := queue w; fetches := f; runs := runs w |}.

Definition with_runs (r : list run_call) (w : world) : world :=
  {| objs := objs w; queue := queue w; fetches := fetches w; runs := r |}.

(** ** Methods run in a state of the job and the world *)

Definition state : Type := PercevalJob * world.

Definition M (A : Type) : Type := state -> outcome A * state.

Definition ret {A} (a : A) : M A := fun s => (Returned a, s).

Definition raise {A} (e : exn) : M A := fun s => (Raised e, s).

Definition bind {A B} (c : M A) (k : A -> M B) : M B :=
  fun s =>
    match c s with
    | (Returned a, s') => k a s'
    | (Raised e, s') => (Raised e, s')
    end.

Definition lift {A} (o : outcome A) : M A :=
  match o with
  | Returned a => ret a
  | Raised e => raise e
  end.

Definition get_self : M PercevalJob := fun s => (Returned (fst s), s).

Definition get_world : M world := fun s => (Returned (snd s), s).

Definition modify_self (f : PercevalJob -> PercevalJob) : M unit :=
  fun s => (Returned tt, (f (fst s), snd s)).

Definition modify_world (f : world -> world) : M unit :=
  fun s => (Returned tt, (fst s, f (snd s))).

Definition modify_result (f : JobResult -> JobResult) : M unit :=
  modify_self (fun j => with_result (f (_result j)) j).

Definition when (b : bool) (c : M unit) : M unit :=
  if b then c else ret tt.

Notation "x <- c ;; k" := (bind c (fun x => k))
  (at level 100, c at next level, right associativity).
Notation "c ;;; k" := (bind c (fun _ => k))
  (at level 100, right associativity).

(** ** Effects on the world *)

(** [self.conn.rpush(name, pickle.dumps(item))]: one more entry at the
    right end of the queue [name].  The call is taken to go through: what
    is proved of a run holds of the runs whose appends the connection
    accepted. *)
Definition rpush (name : string) (item : dict) : M unit :=
  modify_world (fun w => with_queue (queue w ++ [(name, item)]) w).

(** [d.copy()] for the object at address [a]: a new object with the same
    entries.  An address that holds no dictionary stands for a reference to
    something else ([None], say), which has no [copy]. *)
Definition dict_copy (a : nat) : M nat :=
  w <- get_world ;;
  match objs w !! a with
  | Some d => modify_world (with_objs (objs w ++ [d])) ;;; ret (length (objs w))
  | None => raise (AttributeError "object has no attribute 'copy'")
  end.

(** [d[k] = v] for the object at address [a] *)
Definition setitem (a : nat) (k : string) (v : value) : M unit :=
  modify_world (fun w => with_objs (alter (insert k v) a (objs w)) w).

(** The entries of the object at address [a], as a callee reads them. *)
Definition contents (a : nat) : M dict :=
  w <- get_world ;;
  match objs w !! a with
  | Some d => ret d
  | None => raise (TypeError "object is not a mapping")
  end.

Definition log_fetch (c : fetch_call) : M unit :=
  modify_world (fun w => with_fetches (fetches w ++ [c]) w).

Definition log_run (c : run_call) (w : world) : world :=
  with_runs (runs w ++ [c]) w.

(** [for item in g: body(item)] *)
Fixpoint for_each (g : gen) (body : dict -> M unit) : M unit :=
  match g with
  | GDone => ret tt
  | GRaise e => raise e
  | GYield item rest => body item ;;; for_each rest body
  end.

Section Jobs.

Context `{Imports}.

(** ** [metadata] (lines 43-61) *)

(** The loop of [decorator]: each item gets the two fields and is yielded
    before the next one is asked for; what ends [func]'s generator ends
    this one. *)
Fixpoint decorator (self_job_id : value) (g : gen) : gen :=
  match g with
  | GDone => GDone
  | GRaise e => GRaise e
  | GYield item rest =>
      GYield (<["job_id" := self_job_id]>
                (<["arthur_version" := VStr __version__]> item))
             (decorator self_job_id rest)
  end.

(** [func] is called when the wrapping generator is first advanced, so an
    exception of the call itself comes out of the iteration too. *)
Definition metadata (func : M gen) : M gen :=
  g <- func ;;
  self <- get_self ;;
  ret (decorator (pj_job_id self) g).

(** ** [PercevalJob] methods *)

(** [__init__] (lines 110-126) *)
Definition PercevalJob_init (job_id task_id : value) (backend : string)
    (category : value) (qitems : string) : outcome PercevalJob :=
  match find_backends !! backend with
  | None => Raised (NotFoundError backend)
  | Some k =>
      let self :=
        {| _bklass := k; pj_job_id := job_id; pj_task_id := task_id;
           pj_backend := backend; qitems := qitems; retries := 0;
           archive_manager_of := None; pj_category := category;
           _result :=
             {| job_id := job_id; task_id := task_id; backend := backend;
                category := category; last_uuid := VNone;
                max_date := VNone; nitems := 0; offset := VNone;
                nresumed := 0 |} |} in
      Returned self
  end.

(** [initialize_archive_manager] (lines 132-141) *)
Definition initialize_archive_manager (archive_path : value) : M unit :=
  if bool_decide (archive_path = VStr EmptyString) then
    raise (ValueError "Archive manager path cannot be empty")
  else
    when (truthy archive_path)
      (modify_self
         (with_archive_manager (Some (ArchiveManager archive_path)))).

(** [has_archiving] and [has_resuming] (lines 191-199) *)
Definition has_archiving (self : PercevalJob) : bool :=
  has_archiving_flag (_bklass self).

Definition has_resuming (self : PercevalJob) : bool :=
  has_resuming_flag (_bklass self).

(** The body of [_execute] (lines 227-231), before decoration.
    [backend_args] is the address of the dictionary handed to Perceval. *)
Definition execute_body (backend_args : nat) (archive_args : option dict)
    : M gen :=
  live <- (if negb (truthy_dict archive_args) then ret true
           else v <- lift (subscript archive_args "fetch_from_archive") ;;
                ret (negb (truthy v))) ;;
  self <- get_self ;;
  w <- get_world ;;
  if live : bool then
    a <- contents backend_args ;;
    log_fetch {| fc_mode := Live; fc_args := a;
                 fc_manager := archive_manager_of self |} ;;;
    ret (fetch (_bklass self) (length (fetches w)) a
           (archive_manager_of self))
  else
    after <- lift (subscript archive_args "archived_after") ;;
    a <- contents backend_args ;;
    log_fetch {| fc_mode := FromArchive; fc_args := a;
                 fc_manager := archive_manager_of self |} ;;;
    ret (fetch_from_archive (_bklass self) (length (fetches w)) a
           (archive_manager_of self) (pj_category self) after).

(** [_execute] (lines 201-231) *)
Definition _execute (backend_args : nat) (archive_args : option dict)
    : M gen :=
  metadata (execute_body backend_args archive_args).

(** The body of the loop of [run] (lines 181-189). *)
Definition process_item (item : dict) : M unit :=
  self <- get_self ;;
  rpush (qitems self) item ;;;
  modify_result (fun r => set_nitems (nitems r + 1) r) ;;;
  uuid <- lift (getitem item "uuid") ;;
  modify_result (set_last_uuid uuid) ;;;
  self <- get_self ;;
  newer <- (if negb (truthy (max_date (_result self))) then ret true
            else u <- lift (getitem item "updated_on") ;;
                 lift (py_lt (max_date (_result self)) u)) ;;
  when newer
    (u <- lift (getitem item "updated_on") ;;
     modify_result (set_max_date u)) ;;;
  when (bool_decide (is_Some (item !! "offset")))
    (o <- lift (getitem item "offset") ;;
     modify_result (set_offset o)).

(** Lines 169-178: a new record, or the arguments of a resumed fetch. *)
Definition prepare (args : nat) (resume : bool) : M unit :=
  if negb resume then
    modify_self (fun self => with_result (fresh_result self) self)
  else
    self <- get_self ;;
    when (truthy (max_date (_result self)))
      (d <- lift (unixtime_to_datetime (max_date (_result self))) ;;
       setitem args "from_date" d) ;;;
    self <- get_self ;;
    when (truthy (offset (_result self)))
      (setitem args "offset" (offset (_result self))) ;;;
    modify_result (fun r => set_nresumed (nresumed r + 1) r).

(** Lines 166-167. *)
Definition open_archive (archive_args : option dict) : M unit :=
  when (truthy_dict archive_args)
    (path <- lift (subscript archive_args "archive_path") ;;
     initialize_archive_manager path).

(** Lines 180-189: the [for] statement. *)
Definition forward_items (args : nat) (archive_args : option dict)
    : M unit :=
  g <- _execute args archive_args ;;
  for_each g process_item.

(** Lines 164-178: what [run] does before it asks for the first item;
    the result is [args]. *)
Definition start (backend_args : nat) (archive_args : option dict)
    (resume : bool) : M nat :=
  args <- dict_copy backend_args ;;
  open_archive archive_args ;;;
  prepare args resume ;;;
  ret args.

(** [run] (lines 143-189) *)
Definition run (backend_args : nat) (archive_args : option dict)
    (resume : bool) : M unit :=
  args <- start backend_args archive_args resume ;;
  forward_items args archive_args.

(** ** [execute_perceval_job] (lines 234-304) *)

(** The test of line 287. *)
Definition must_cancel (job : PercevalJob) (failures : Z)
    (sched_args : option dict) : outcome bool :=
  if negb (has_resuming job) then Returned true
  else
    match subscript sched_args "max_retries" with
    | Raised e => Raised e
    | Returned m => py_ge (VInt failures) m
    end.

(** The [while] loop of lines 277-297; [fuel] bounds its iterations. *)
Fixpoint retry_loop (fuel : nat) (backend_args : nat)
    (archive_args sched_args : option dict) (resume : bool) (failures : Z)
    (s : state) : option (outcome unit * state) :=
  match fuel with
  | O => None
  | S fuel' =>
      let call :=
        {| rc_backend_args := backend_args;
           rc_contents := objs (snd s) !! backend_args;
           rc_archive_args := archive_args; rc_resume := resume |} in
      match run backend_args archive_args resume
              (fst s, log_run call (snd s)) with
      | (Returned _, s') => Some (Returned tt, s')
      | (Raised e, s') =>
          if is_attribute_error e then Some (Raised e, s')
          else
            let failures' := failures + 1 in
            match must_cancel (fst s') failures' sched_args with
            | Raised e' => Some (Raised e', s')
            | Returned true => Some (Raised e, s')
            | Returned false =>
                retry_loop fuel' backend_args archive_args sched_args
                  true failures' s'
            end
      end
  end.

(** Iterations that the loop can need: one, and one more for each failure
    below [max_retries]. *)
Definition retry_fuel (sched_args : option dict) : nat :=
  match sched_args with
  | Some d =>
      match d !! "max_retries" with
      | Some m => S (Z.to_nat (default 0 (as_number m)))
      | None => 1%nat
      end
  | None => 1%nat
  end.

(** How a call of [execute_perceval_job] ends: what it returns or raises,
    the job it built (if it got that far) and the world it leaves. *)
Record execution : Type := {
  ex_outcome : outcome JobResult;
  ex_job : option PercevalJob;
  ex_world : world
}.

Definition execute_perceval_job_fuel (fuel : nat) (rq_job_id : value)
    (backend : string) (backend_args : nat) (qitems : string)
    (task_id category : value) (archive_args sched_args : option dict)
    (w : world) : option execution :=
  match PercevalJob_init rq_job_id task_id backend category qitems with
  | Raised e =>
      Some {| ex_outcome := Raised e; ex_job := None; ex_world := w |}
  | Returned job =>
      if negb (has_archiving job) && truthy_dict archive_args then
        Some {| ex_outcome :=
                  Raised (AttributeError
                    "archive attributes set but archive is not supported");
                ex_job := Some job; ex_world := w |}
      else
        match retry_loop fuel backend_args archive_args sched_args
                false 0 (job, w) with
        | None => None
        | Some (Returned _, (job', w')) =>
            Some {| ex_outcome := Returned (_result job');
                    ex_job := Some job'; ex_world := w' |}
        | Some (Raised e, (job', w')) =>
            Some {| ex_outcome := Raised e; ex_job := Some job';
                    ex_world := w' |}
        end
  end.

Definition execute_perceval_job (rq_job_id : value) (backend : string)
    (backend_args : nat) (qitems : string) (task_id category : value)
    (archive_args sched_args : option dict) (w : world) : option execution :=
  execute_perceval_job_fuel (retry_fuel sched_args) rq_job_id backend
    backend_args qitems task_id category archive_args sched_args w.

End Jobs.

(** ** What one stretch of a run may change *)

(** From [s] to [s'] the items [new] went to the job's queue and were
    counted, and the fetches [calls] were made; apart from that only
    [last_uuid], [max_date] and [offset] of the record may differ. *)
Record advances (s s' : state) (new : list dict) (calls : list fetch_call)
    : Prop := {
  adv_self : fst s' = with_result (_result (fst s')) (fst s);
  adv_job_id : job_id (_result (fst s')) = job_id (_result (fst s));
  adv_task_id : task_id (_result (fst s')) = task_id (_result (fst s));
  adv_backend : backend (_result (fst s')) = backend (_result (fst s));
  adv_category : category (_result (fst s')) = category (_result (fst s));
  adv_nresumed : nresumed (_result (fst s')) = nresumed (_result (fst s));
  adv_nitems :
    nitems (_result (fst s'))
    = nitems (_result (fst s)) + Z.of_nat (length new);
  adv_queue :
    queue (snd s') = queue (snd s) ++ map (pair (qitems (fst s))) new;
  adv_objs : objs (snd s') = objs (snd s);
  adv_fetches : fetches (snd s') = fetches (snd s) ++ calls;
  adv_runs : runs (snd s') = runs (snd s)
}.

(** The two fields of [metadata] on an item. *)
Definition tagged `{Imports} (self_job_id : value) (item : dict) : Prop :=
  item !! "arthur_version" = Some (VStr __version__)
  /\ item !! "job_id" = Some self_job_id.

(** Archive arguments with which lines 166-167 raise nothing. *)
Definition archive_ready (archive_args : option dict) : Prop :=
  truthy_dict archive_args = false
  \/ exists path, subscript archive_args "archive_path" = Returned path
                  /\ path <> VStr EmptyString.

(** The archive manager of the job once lines 166-167 are through. *)
Definition manager_after (archive_args : option dict)
    (before : option archive_manager) : option archive_manager :=
  if truthy_dict archive_args then
    match subscript archive_args "archive_path" with
    | Returned path =>
        if truthy path then Some (ArchiveManager path) else before
    | Raised _ => before
    end
  else before.

(** Retries that [max_retries] still allows after [failures] failures. *)
Definition retries_left (sched_args : option dict) (failures : Z) : nat :=
  match sched_args with
  | Some d =>
      match d !! "max_retries" with
      | Some m => Z.to_nat (default 0 (as_number m) - failures)
      | None => 0%nat
      end
  | None => 0%nat
  end.

(** ** Reading a run off its source *)

(** The item as [decorator] hands it on. *)
Definition with_metadata `{Imports} (self_job_id : value) (item : dict)
    : dict :=
  <["job_id" := self_job_id]> (<["arthur_version" := VStr __version__]> item).

(** The value under [k] of the last of [items] that has the key, [v0] when
    none of them has it. *)
Definition latest (k : string) (items : list dict) (v0 : value) : value :=
  foldl (fun v item => default v (item !! k)) v0 items.

(** The date that lines 186-187 leave in the record when the stored date
    is [m] and the date of the item is the number [t]: [t] when [m] is
    false ([None], zero) or smaller than [t], and [m] otherwise, also
    when [m] cannot be compared with a number and line 186 raises. *)
Definition later_date (m : value) (t : Z) : value :=
  match m with
  | VNone => VInt t
  | VInt x => if (x =? 0) || (x <? t) then VInt t else m
  | VBool b => if negb b || (1 <? t) then VInt t else m
  | VStr s => if String.eqb s EmptyString then VInt t else m
  | VDatetime _ => m
  end.

(** The generator that Perceval returned for the logged call [c], made
    after [before] other fetches by a job of class [k] and category
    [category] that was run with [archive_args]. *)
Definition source_of (k : bklass) (before : nat) (c : fetch_call)
    (category : value) (archive_args : option dict) : gen :=
  match fc_mode c with
  | Live => fetch k before (fc_args c) (fc_manager c)
  | FromArchive =>
      fetch_from_archive k before (fc_args c) (fc_manager c) category
        (default VNone (archive_args ≫= (.!! "archived_after")))
  end.

(** Archive arguments with which neither lines 166-167 nor lines 227-231
    raise: none at all, or a path that is not empty, ['fetch_from_archive']
    and, when that is true, ['archived_after']. *)
Definition archive_complete (archive_args : option dict) : Prop :=
  archive_ready archive_args
  /\ (truthy_dict archive_args = true ->
      exists v,
        subscript archive_args "fetch_from_archive" = Returned v
        /\ (truthy v = true ->
            exists after,
              subscript archive_args "archived_after" = Returned after)).

(** A record that carries the identifiers of its job. *)
Definition identified (j : PercevalJob) : Prop :=
  job_id (_result j) = pj_job_id j
  /\ task_id (_result j) = pj_task_id j
  /\ backend (_result j) = pj_backend j
  /\ category (_result j) = pj_category j.

(** The same world without its log of [run] calls. *)
Definition without_runs (w : world) : world := with_runs [] w.

(** ** Sample jobs *)

Module Samples.

Definition item_at (uuid : string) (updated_on : Z) : dict :=
  <["uuid" := VStr uuid]> (<["updated_on" := VInt updated_on]> ∅).

Definition connection_lost : exn := OtherError "ConnectionError".

(** A source without archive that loses its connection after two items on
    the first fetch and answers with one more item afterwards. *)
Definition flaky : bklass :=
  {| has_archiving_flag := false; has_resuming_flag := true;
     fetch := fun n _ _ =>
       match n with
       | O => gen_of [item_at "a" 10; item_at "b" 20] (GRaise connection_lost)
       | _ => gen_of [item_at "c" 30] GDone
       end;
     fetch_from_archive := fun _ _ _ _ _ => GDone |}.

(** A source with archive whose every fetch fails after the same two
    items. *)
Definition broken : bklass :=
  {| has_archiving_flag := true; has_resuming_flag := true;
     fetch := fun _ _ _ =>
       gen_of [item_at "a" 10; item_at "b" 20] (GRaise connection_lost);
     fetch_from_archive := fun _ _ _ _ _ =>
       gen_of [item_at "a" 10; item_at "b" 20] (GRaise connection_lost) |}.

(** A source that rejects its arguments. *)
Definition picky : bklass :=
  {| has_archiving_flag := true; has_resuming_flag := true;
     fetch := fun _ _ _ => GRaise (AttributeError "missing argument");
     fetch_from_archive := fun _ _ _ _ _ => GDone |}.

(** A source of old items: one dated at the epoch, lost connection, then
    one dated a second before the epoch. *)
Definition antique : bklass :=
  {| has_archiving_flag := true; has_resuming_flag := true;
     fetch := fun n _ _ =>
       match n with
       | O => gen_of [item_at "a" 0] (GRaise connection_lost)
       | _ => gen_of [item_at "b" (-1)] GDone
       end;
     fetch_from_archive := fun _ _ _ _ _ => GDone |}.

#[local] Instance imports : Imports :=
  {| __version__ := "0.1.0";
     unixtime_to_datetime := fun v =>
       match v with
       | VInt z => Returned (VDatetime z)
       | _ => Raised (OtherError "InvalidDateError")
       end;
     find_backends :=
       <["flaky" := flaky]>
         (<["broken" := broken]>
            (<["picky" := picky]> (<["antique" := antique]> ∅))) |}.

(** The caller's arguments (at address 0) and nothing else. *)
Definition caller_args : dict :=
  <["from_date" := VDatetime 5]> (<["offset" := VInt 7]> ∅).

Definition world0 : world :=
  {| objs := [caller_args]; queue := []; fetches := []; runs := [] |}.

Definition no_path : option dict :=
  Some (<["archive_path" := VStr EmptyString]>
          (<["fetch_from_archive" := VBool false]> ∅)).

Definition some_path : option dict :=
  Some (<["archive_path" := VStr "/tmp/archive"]>
          (<["fetch_from_archive" := VBool false]> ∅)).

Definition three_retries : option dict :=
  Some (<["max_retries" := VInt 3]> ∅).

(** The job that [PercevalJob_init] builds on the backend [k] registered as
    [name]. *)
Definition new_job (name : string) (k : bklass) : PercevalJob :=
  {| _bklass := k; pj_job_id := VStr "job-1"; pj_task_id := VStr "task-1";
     pj_backend := name; qitems := "items"; retries := 0;
     archive_manager_of := None; pj_category := VStr "commit";
     _result :=
       {| job_id := VStr "job-1"; task_id := VStr "task-1";
          backend := name; category := VStr "commit";
          last_uuid := VNone; max_date := VNone; nitems := 0;
          offset := VNone; nresumed := 0 |} |}.

(** A job on [k] that has already forwarded five items. *)
Definition used_job (k : bklass) : PercevalJob :=
  {| _bklass := k; pj_job_id := VStr "job-1"; pj_task_id := VStr "task-1";
     pj_backend := "broken"; qitems := "items"; retries := 0;
     archive_manager_of := None; pj_category := VStr "commit";
     _result :=
       {| job_id := VStr "job-1"; task_id := VStr "task-1";
          backend := "broken"; category := VStr "commit";
          last_uuid := VStr "e"; max_date := VInt 50; nitems := 5;
          offset := VInt 9; nresumed := 0 |} |}.

(** An item that carries an offset. *)
Definition item_with_offset (uuid : string) (updated_on position : Z)
    : dict :=
  <["offset" := VInt position]> (item_at uuid updated_on).

(** A source with archive that answers every fetch with the same three
    items and ends: the second has the latest date, the offsets go down
    and the third item has none. *)
Definition steady : bklass :=
  {| has_archiving_flag := true; has_resuming_flag := true;
     fetch := fun _ _ _ =>
       gen_of [item_with_offset "a" 10 3; item_with_offset "b" 30 1;
               item_at "c" 20] GDone;
     fetch_from_archive := fun _ _ _ _ _ =>
       gen_of [item_with_offset "a" 10 3] GDone |}.

(** Archive arguments that ask for the items of the archive. *)
Definition from_archive : option dict :=
  Some (<["archive_path" := VStr "/tmp/archive"]>
          (<["fetch_from_archive" := VBool true]>
             (<["archived_after" := VDatetime 0]> ∅))).

(** Archive arguments without a path. *)
Definition no_path_key : dict := <["fetch_from_archive" := VBool false]> ∅.

(** A job whose stored date is not one that [unixtime_to_datetime]
    takes. *)
Definition misdated_job (k : bklass) : PercevalJob :=
  with_result (set_max_date (VStr "yesterday") (_result (used_job k)))
    (used_job k).

End Samples.

(** * Properties *)

Section Properties.

Context `{Imports}.

Ltac unfold_m :=
  unfold bind, ret, raise, lift, when, modify_result, modify_self,
    modify_world, get_self, get_world, rpush, log_fetch, setitem, contents,
    dict_copy, getitem in *.

(** Runs a piece of straight-line code on a state, case by case. *)
Ltac crunch :=
  repeat (first [ progress unfold_m
                | progress simpl in *
                | progress simplify_eq
                | case_match ]).

(** Runs the monad operations that are in head position. *)
Ltac run_m := repeat first [progress unfold_m | progress simpl].

Lemma advances_refl s : advances s s [] [].
Proof.
  destruct s as [[] []].
  split; simpl; rewrite ?app_nil_r; auto with lia.
Qed.

Lemma advances_trans s1 s2 s3 new new' calls calls' :
  advances s1 s2 new calls -> advances s2 s3 new' calls' ->
  advances s1 s3 (new ++ new') (calls ++ calls').
Proof.
  intros [] []. split; try congruence.
  - destruct s1 as [[] ?], s2 as [[] ?], s3 as [[] ?]; simpl in *.
    unfold with_result in *; simpl in *. congruence.
  - rewrite length_app. lia.
  - rewrite map_app, app_assoc.
    replace (qitems s1.1) with (qitems s2.1) at 2; [congruence|].
    rewrite adv_self0. reflexivity.
  - rewrite app_assoc. congruence.
Qed.

(** One iteration of the loop of [run]: one append, one increment,
    whether the iteration completes or raises. *)
Lemma process_item_advances item s :
  advances s (snd (process_item item s)) [item] [].
Proof.
  destruct s as [[k a b c d e f g r] w]. destruct r, w.
  unfold process_item. crunch.
  all: split; simpl; rewrite ?app_nil_r; try reflexivity; try lia.
Qed.

(** The loop of [run] on a generator [g]: the items that went to the queue
    are the first ones of [g], all of them when the loop returns. *)
Lemma for_each_advances g s :
  exists new,
    advances s (snd (for_each g process_item s)) new []
    /\ new `prefix_of` gen_items g
    /\ (fst (for_each g process_item s) = Returned tt ->
        new = gen_items g /\ gen_end g = None).
Proof.
  revert s. induction g as [|e|item rest IH]; intros s; simpl.
  - exists []. split; [apply advances_refl|]. split; [done|done].
  - exists []. split; [apply advances_refl|]. split; [done|]. discriminate.
  - pose proof (process_item_advances item s) as Hp.
    unfold bind. destruct (process_item item s) as [[[]|e] s1]; simpl in *.
    + destruct (IH s1) as (new & Hadv & Hpre & Hret).
      exists (item :: new). split.
      * eapply (advances_trans s s1 _ [item] new [] []); eassumption.
      * split; [by apply prefix_cons|].
        intros Hr. destruct (Hret Hr) as [-> ->]. done.
    + exists [item]. split; [assumption|]. split; [|discriminate].
      apply prefix_cons, prefix_nil.
Qed.

Lemma decorator_tagged jid g : Forall (tagged jid) (gen_items (decorator jid g)).
Proof.
  induction g as [| |item rest IH]; simpl; constructor; [|assumption].
  split.
  - rewrite lookup_insert_ne by done. apply lookup_insert_eq.
  - apply lookup_insert_eq.
Qed.

Lemma decorator_items jid g :
  gen_items (decorator jid g)
  = map (fun item => <["job_id" := jid]>
                       (<["arthur_version" := VStr __version__]> item))
        (gen_items g).
Proof. induction g; simpl; congruence. Qed.

Lemma decorator_end jid g : gen_end (decorator jid g) = gen_end g.
Proof. induction g; simpl; congruence. Qed.

(** Starting the generator of [_execute]: at most one fetch, made with the
    entries of [args] at that moment; nothing else changes. *)
Lemma execute_advances args archive_args s :
  exists calls,
    advances s (snd (_execute args archive_args s)) [] calls
    /\ (length calls <= 1)%nat
    /\ Forall (fun c => objs (snd s) !! args = Some (fc_args c)) calls
    /\ forall g, fst (_execute args archive_args s) = Returned g ->
                 exists g0, g = decorator (pj_job_id (fst s)) g0.
Proof.
  destruct s as [[k a b c d e f g r] w]. destruct r, w.
  unfold _execute, metadata, execute_body, subscript.
  destruct archive_args as [aa|]; crunch.
  all: try (exists []; split; [apply advances_refl|];
            split; [simpl; lia|]; split; [constructor|];
            intros ? ?; simplify_eq; eauto; fail).
  all: eexists [_]; split;
    [split; simpl; rewrite ?app_nil_r; try reflexivity; try lia|];
    (split; [simpl; lia|]); (split; [repeat constructor; assumption|]);
    intros ? ?; simplify_eq; eauto.
Qed.

(** The [for] statement of [run]: every item that reaches the queue has the
    two fields of [metadata]. *)
Lemma forward_items_advances args archive_args s :
  exists new calls,
    advances s (snd (forward_items args archive_args s)) new calls
    /\ Forall (tagged (pj_job_id (fst s))) new
    /\ (length calls <= 1)%nat
    /\ Forall (fun c => objs (snd s) !! args = Some (fc_args c)) calls.
Proof.
  unfold forward_items, bind.
  destruct (execute_advances args archive_args s)
    as (calls & Hadv & Hlen & Hargs & Hdec).
  destruct (_execute args archive_args s) as [[g|e] s1]; simpl in *.
  - destruct (Hdec g eq_refl) as [g0 ->].
    destruct (for_each_advances (decorator (pj_job_id s.1) g0) s1)
      as (new & Hadv' & Hpre & _).
    exists new, calls. split; [|split; [|split]]; try assumption.
    + pose proof (advances_trans _ _ _ _ _ _ _ Hadv Hadv') as Ht.
      rewrite app_nil_r in Ht. exact Ht.
    + destruct Hpre as [rest Hrest].
      pose proof (decorator_tagged (pj_job_id s.1) g0) as Ht.
      rewrite Hrest in Ht. by apply Forall_app in Ht as [? _].
  - exists [], calls. split; [assumption|]. split; [constructor|]. done.
Qed.

Lemma alter_last (f : dict -> dict) (l : list dict) (d : dict) :
  alter f (length l) (l ++ [d]) = l ++ [f d].
Proof.
  rewrite alter_app_r_alt by lia. by rewrite Nat.sub_diag.
Qed.

(** Lines 164-167 when the archive arguments are in order: the copy is
    made and the archive manager is set as [manager_after] says. *)
Lemma open_archive_ready archive_args j w :
  archive_ready archive_args ->
  open_archive archive_args (j, w)
  = (Returned tt,
     (with_archive_manager
        (manager_after archive_args (archive_manager_of j)) j, w)).
Proof.
  destruct j, w. unfold open_archive, manager_after, initialize_archive_manager.
  intros [Hno | (path & Hpath & Hne)].
  - rewrite Hno. reflexivity.
  - rewrite Hpath. crunch; try reflexivity.
    all: match goal with Hb : bool_decide _ = true |- _ =>
           apply bool_decide_eq_true in Hb; contradiction end.
Qed.

(** A fresh run, once lines 164-167 are through, is the [for] statement
    started on a new record and on a copy of the caller's arguments. *)
Lemma run_fresh backend_args archive_args j w d :
  objs w !! backend_args = Some d ->
  archive_ready archive_args ->
  run backend_args archive_args false (j, w)
  = forward_items (length (objs w)) archive_args
      (with_result (fresh_result j)
         (with_archive_manager
            (manager_after archive_args (archive_manager_of j)) j),
       with_objs (objs w ++ [d]) w).
Proof.
  intros Hd Hready. unfold run, start, dict_copy.
  unfold bind at 1 2 3. unfold get_world, ret. simpl. rewrite Hd.
  unfold bind at 1 2 3. unfold modify_world, ret. simpl.
  rewrite open_archive_ready by assumption.
  unfold prepare, modify_self. simpl. reflexivity.
Qed.

(** A resumed run, once lines 164-167 are through and the stored date
    converts, is the [for] statement started on the record with one more
    resume and on a copy of the caller's arguments with the two keys
    set. *)
Lemma run_resumed backend_args archive_args j w d converted :
  objs w !! backend_args = Some d ->
  archive_ready archive_args ->
  (truthy (max_date (_result j)) = true ->
   unixtime_to_datetime (max_date (_result j)) = Returned converted) ->
  let d1 := if truthy (max_date (_result j))
            then <["from_date" := converted]> d else d in
  let d2 := if truthy (offset (_result j))
            then <["offset" := offset (_result j)]> d1 else d1 in
  run backend_args archive_args true (j, w)
  = forward_items (length (objs w)) archive_args
      (with_result
         (set_nresumed (nresumed (_result j) + 1) (_result j))
         (with_archive_manager
            (manager_after archive_args (archive_manager_of j)) j),
       with_objs (objs w ++ [d2]) w).
Proof.
  intros Hd Hready Hconv d1 d2. unfold run, start, dict_copy.
  unfold bind at 1 2 3. unfold get_world, ret. simpl. rewrite Hd.
  unfold bind at 1 2 3. unfold modify_world, ret. simpl.
  rewrite open_archive_ready by assumption.
  subst d1 d2. destruct j as [k a b c q e f g r], w. destruct r.
  unfold prepare. simpl in *.
  destruct (truthy max_date0) eqn:Hm, (truthy offset0) eqn:Ho.
  all: crunch; try (specialize (Hconv eq_refl); simplify_eq).
  all: try congruence.
  all: rewrite ?alter_last; reflexivity.
Qed.

(** Every run either stops before its loop, with the record and the queue
    as they were, or is the [for] statement started on a copy of the
    caller's arguments and on the record that [resume] asks for. *)
Lemma run_shape backend_args archive_args resume j w :
  (exists e j1 w1,
     run backend_args archive_args resume (j, w) = (Raised e, (j1, w1))
     /\ _result j1 = _result j
     /\ (exists m, j1 = with_archive_manager m j)
     /\ queue w1 = queue w /\ fetches w1 = fetches w /\ runs w1 = runs w
     /\ exists extra, objs w1 = objs w ++ extra)
  \/ (exists j1 d,
        run backend_args archive_args resume (j, w)
        = forward_items (length (objs w)) archive_args
            (j1, with_objs (objs w ++ [d]) w)
        /\ (exists m, j1 = with_result (_result j1)
                             (with_archive_manager m j))
        /\ _result j1
           = if resume
             then set_nresumed (nresumed (_result j) + 1) (_result j)
             else fresh_result j).
Proof.
  destruct j as [k a b c q e f g r], w as [o qu fe ru]. destruct r.
  unfold run, start. generalize forward_items as loop. intros loop.
  unfold open_archive, initialize_archive_manager, prepare, subscript.
  destruct archive_args as [aa|], resume; crunch; rewrite ?alter_last.
  all: first
    [ left; do 3 eexists; split; [reflexivity|]; simpl;
      split; [reflexivity|]; split; [eexists; reflexivity|];
      repeat (split; [reflexivity|]);
      first [ by exists []; rewrite app_nil_r | by eexists [_] ]
    | right; do 2 eexists; split; [reflexivity|]; simpl;
      split; [eexists; reflexivity | reflexivity] ].
Qed.

(** What any run leaves behind. *)
Lemma run_frame backend_args archive_args resume j w :
  let s' := snd (run backend_args archive_args resume (j, w)) in
  exists new calls extra m,
    fst s' = with_result (_result (fst s')) (with_archive_manager m j)
    /\ queue (snd s') = queue w ++ map (pair (qitems j)) new
    /\ Forall (tagged (pj_job_id j)) new
    /\ fetches (snd s') = fetches w ++ calls
    /\ (length calls <= 1)%nat
    /\ runs (snd s') = runs w
    /\ objs (snd s') = objs w ++ extra
    /\ ((new = [] /\ _result (fst s') = _result j)
        \/ nitems (_result (fst s'))
           = (if resume then nitems (_result j) else 0)
             + Z.of_nat (length new)).
Proof.
  intros s'. subst s'.
  destruct (run_shape backend_args archive_args resume j w)
    as [(e & j1 & w1 & -> & Hres & [m ->] & Hq & Hf & Hr & extra & Ho)
       |(j1 & d & -> & [m Hj1] & Hres)]; simpl.
  - exists [], [], extra, m. simpl. rewrite !app_nil_r.
    split; [by destruct j|]. split; [assumption|]. split; [constructor|].
    split; [assumption|]. split; [simpl; lia|]. split; [assumption|].
    split; [assumption|]. left. split; [reflexivity|]. by destruct j.
  - destruct (forward_items_advances (length (objs w)) archive_args
                (j1, with_objs (objs w ++ [d]) w))
      as (new & calls & [] & Htag & Hlen & _).
    simpl in *. exists new, calls, [d], m.
    assert (Hq : qitems j1 = qitems j) by (rewrite Hj1; by destruct j).
    assert (Hid : pj_job_id j1 = pj_job_id j) by (rewrite Hj1; by destruct j).
    rewrite Hq in adv_queue0. rewrite Hid in Htag.
    split; [rewrite adv_self0, Hj1; by destruct j|].
    split; [assumption|]. split; [assumption|]. split; [assumption|].
    split; [assumption|]. split; [assumption|]. split; [assumption|].
    right. rewrite adv_nitems0, Hres. by destruct resume, j.
Qed.

(** The loop of [execute_perceval_job] ends: each failure that does not end
    it uses up one of the retries that [max_retries] allows. *)
Lemma retry_loop_total fuel backend_args archive_args sched_args resume
    failures s :
  (retries_left sched_args failures < fuel)%nat ->
  is_Some (retry_loop fuel backend_args archive_args sched_args resume
             failures s).
Proof.
  revert resume failures s.
  induction fuel as [|fuel IH]; intros resume failures s Hleft; [lia|].
  simpl. destruct (run _ _ _ _) as [[[]|e] s']; [eauto|].
  destruct (is_attribute_error e); [eauto|].
  unfold must_cancel. destruct (negb (has_resuming s'.1)); [eauto|].
  unfold subscript, getitem.
  destruct sched_args as [d|]; [|eauto].
  destruct (d !! "max_retries") as [m|] eqn:Hm; [|eauto].
  destruct (py_ge (VInt (failures + 1)) m) as [[]|] eqn:Hge; [eauto| |eauto].
  apply IH. unfold retries_left in *. rewrite Hm in *.
  destruct m as [|[]| | |]; simpl in *; simplify_eq; lia.
Qed.

(** What the loop of [execute_perceval_job] leaves behind: the runs it
    made, the first with the [resume] it was entered with and the others
    with [resume] set, all on the same arguments; the dictionaries that
    existed keep their entries; the record counts what went to the
    queue. *)
Lemma retry_loop_frame fuel backend_args archive_args sched_args resume
    failures j w out j' w' d :
  objs w !! backend_args = Some d ->
  retry_loop fuel backend_args archive_args sched_args resume failures (j, w)
  = Some (out, (j', w')) ->
  exists rest new m,
    runs w'
    = runs w
      ++ {| rc_backend_args := backend_args; rc_contents := Some d;
            rc_archive_args := archive_args; rc_resume := resume |}
      :: rest
    /\ Forall (fun c => c = {| rc_backend_args := backend_args;
                              rc_contents := Some d;
                              rc_archive_args := archive_args;
                              rc_resume := true |}) rest
    /\ objs w `prefix_of` objs w'
    /\ j' = with_result (_result j') (with_archive_manager m j)
    /\ queue w' = queue w ++ map (pair (qitems j)) new
    /\ Forall (tagged (pj_job_id j)) new
    /\ (nitems (_result j') = nitems (_result j) + Z.of_nat (length new)
        \/ (resume = false
            /\ nitems (_result j') = Z.of_nat (length new))).
Proof.
  revert resume failures j w.
  induction fuel as [|fuel IH]; intros resume failures j w Hd Hloop;
    [discriminate|].
  cbn [retry_loop fst snd] in Hloop. rewrite Hd in Hloop.
  match type of Hloop with
  | context [run _ _ _ (j, ?w0)] =>
      pose proof (run_frame backend_args archive_args resume j w0) as Hf;
      destruct (run backend_args archive_args resume (j, w0))
        as [o [j1 w1]]
  end.
  cbn [fst snd] in Hf, Hloop.
  destruct Hf as (new & calls & extra & m & Hj1 & Hq & Htag & _ & _ & Hr
                  & Ho & Hn0).
  assert (Hn : nitems (_result j1)
               = nitems (_result j) + Z.of_nat (length new)
               \/ (resume = false
                   /\ nitems (_result j1) = Z.of_nat (length new))).
  { destruct Hn0 as [[-> ->]|Hn0]; [left; simpl; lia|].
    destruct resume; [by left|right; split; [done|lia]]. }
  clear Hn0.
  assert (Hend : forall o', Some (o', (j1, w1)) = Some (out, (j', w')) ->
    exists rest new m,
      runs w'
      = runs w
        ++ {| rc_backend_args := backend_args; rc_contents := Some d;
              rc_archive_args := archive_args; rc_resume := resume |}
        :: rest
      /\ Forall (fun c => c = {| rc_backend_args := backend_args;
                                rc_contents := Some d;
                                rc_archive_args := archive_args;
                                rc_resume := true |}) rest
      /\ objs w `prefix_of` objs w'
      /\ j' = with_result (_result j') (with_archive_manager m j)
      /\ queue w' = queue w ++ map (pair (qitems j)) new
      /\ Forall (tagged (pj_job_id j)) new
      /\ (nitems (_result j') = nitems (_result j) + Z.of_nat (length new)
          \/ (resume = false
              /\ nitems (_result j') = Z.of_nat (length new)))).
  { intros o' ?. simplify_eq. exists [], new, m.
    split; [exact Hr|]. split; [constructor|].
    split; [by exists extra|]. repeat (split; [assumption|]). exact Hn. }
  destruct o as [[]|e]; [by eapply Hend|].
  destruct (is_attribute_error e); [by eapply Hend|].
  destruct (must_cancel j1 (failures + 1) sched_args) as [[]|];
    [by eapply Hend| |by eapply Hend].
  assert (Hd1 : objs w1 !! backend_args = Some d).
  { rewrite Ho. by apply lookup_app_l_Some. }
  destruct (IH true (failures + 1) j1 w1 Hd1 Hloop)
    as (rest & new' & m' & Hr' & Hrest & Ho' & Hj' & Hq' & Htag' & Hn').
  assert (Hqi : qitems j1 = qitems j) by (rewrite Hj1; by destruct j).
  assert (Hid : pj_job_id j1 = pj_job_id j) by (rewrite Hj1; by destruct j).
  exists ({| rc_backend_args := backend_args; rc_contents := Some d;
             rc_archive_args := archive_args; rc_resume := true |} :: rest),
    (new ++ new'), m'.
  split; [rewrite Hr', Hr; simpl; by rewrite <- app_assoc|].
  split; [by constructor|].
  split; [etrans; [|exact Ho']; by exists extra|].
  split; [rewrite Hj', Hj1; by destruct j|].
  split; [rewrite Hq', Hq, Hqi, map_app; by rewrite <- app_assoc|].
  split; [apply Forall_app; split; [assumption|by rewrite <- Hid]|].
  rewrite length_app.
  destruct Hn' as [Hn'|[? _]]; [|discriminate].
  destruct Hn as [Hn|[-> Hn]]; [left|right; split; [reflexivity|]]; lia.
Qed.

(** ** The retry loop *)


(** C6. With archive arguments given and a backend that cannot archive,
    [execute_perceval_job] raises its [AttributeError] straight after
    building the job: the world is as it was, so [run] was not called (and
    is not called again), nothing was fetched and nothing was queued. *)
Theorem archive_unsupported_rejected rq_job_id backend k backend_args qitems
    task_id category archive_args sched_args w :
  find_backends !! backend = Some k ->
  has_archiving_flag k = false ->
  truthy_dict archive_args = true ->
  exists job,
    PercevalJob_init rq_job_id task_id backend category qitems = Returned job
    /\ execute_perceval_job rq_job_id backend backend_args qitems task_id
         category archive_args sched_args w
       = Some {| ex_outcome :=
                   Raised (AttributeError
                     "archive attributes set but archive is not supported");
                 ex_job := Some job; ex_world := w |}.
Proof.
  intros Hk Hno Hargs.
  unfold execute_perceval_job, execute_perceval_job_fuel, PercevalJob_init.
  rewrite Hk. eexists. split; [reflexivity|].
  unfold has_archiving. cbn [_bklass]. by rewrite Hno, Hargs.
Qed.

(** ** Counting and tagging *)

(** C5. One iteration of the loop of [run] makes one append to the queue
    and adds one to [nitems], whether it completes or raises.  So a run
    appends exactly the items that it counts: a resumed run, or a run that
    stops before its record is replaced, adds their number to [nitems]; a
    run that starts afresh leaves [nitems] equal to their number. *)
Theorem nitems_counts_appends backend_args archive_args resume j w item s :
  (queue (snd (snd (process_item item s)))
   = queue (snd s) ++ [(qitems (fst s), item)]
   /\ nitems (_result (fst (snd (process_item item s))))
      = nitems (_result (fst s)) + 1)
  /\ let s' := snd (run backend_args archive_args resume (j, w)) in
     exists new,
       queue (snd s') = queue w ++ map (pair (qitems j)) new
       /\ if resume
          then nitems (_result (fst s'))
               = nitems (_result j) + Z.of_nat (length new)
          else nitems (_result (fst s')) = Z.of_nat (length new)
               \/ (new = [] /\ _result (fst s') = _result j).
Proof.
  split.
  - destruct (process_item_advances item s). split; assumption.
  - intros s'. subst s'.
    destruct (run_frame backend_args archive_args resume j w)
      as (new & _ & _ & _ & _ & Hq & _ & _ & _ & _ & _ & Hn).
    exists new. split; [assumption|].
    destruct resume, Hn as [[-> Hsame]|Hn]; simpl in *.
    + rewrite Hsame. lia.
    + assumption.
    + by right.
    + left. lia.
Qed.

(** The whole job: when [execute_perceval_job] ends, by a return or by an
    exception of its loop, [nitems] is the number of items that the job
    appended to its queue. *)
Lemma execution_counts_appends rq_job_id backend backend_args qname task_id
    category archive_args sched_args w d ex job :
  objs w !! backend_args = Some d ->
  execute_perceval_job rq_job_id backend backend_args qname task_id
    category archive_args sched_args w = Some ex ->
  ex_job ex = Some job ->
  exists new,
    queue (ex_world ex) = queue w ++ map (pair qname) new
    /\ nitems (_result job) = Z.of_nat (length new).
Proof.
  intros Hd. unfold execute_perceval_job, execute_perceval_job_fuel.
  destruct (PercevalJob_init _ _ _ _ _) as [j0|e] eqn:Hinit;
    [|intros; by simplify_eq].
  assert (Hj0 : qitems j0 = qname /\ nitems (_result j0) = 0).
  { unfold PercevalJob_init in Hinit.
    destruct (find_backends !! backend); by simplify_eq. }
  destruct Hj0 as [Hq0 Hn0].
  destruct (negb (has_archiving j0) && truthy_dict archive_args).
  { intros ? ?. simplify_eq. simpl in *. simplify_eq.
    exists []. by rewrite app_nil_r. }
  destruct (retry_loop _ _ _ _ _ _ _) as [[out [j' w']]|] eqn:Hloop;
    [|discriminate].
  destruct (retry_loop_frame _ _ _ _ _ _ _ _ _ _ _ _ Hd Hloop)
    as (_ & new & _ & _ & _ & _ & _ & Hq & _ & Hn).
  intros Hex Hjob. exists new.
  assert (job = j' /\ ex_world ex = w') as [-> ->]
    by (destruct out; simplify_eq; simpl in *; by simplify_eq).
  rewrite Hq0 in Hq. split; [assumption|].
  destruct Hn as [Hn|[_ Hn]]; lia.
Qed.

(** C9. Every item that a run appends to the queue carries
    ['arthur_version'] and ['job_id'], whatever the archive arguments, that
    is on the path of [perceval.fetch] and on the path of
    [perceval.fetch_from_archive]; and [decorator] hands the items on one
    by one: the first items of its source come out with the two fields
    set before the rest of the source is looked at. *)
Theorem forwarded_items_tagged backend_args archive_args resume j w items
    tail :
  (let s' := snd (run backend_args archive_args resume (j, w)) in
   exists new,
     queue (snd s') = queue w ++ map (pair (qitems j)) new
     /\ Forall (tagged (pj_job_id j)) new)
  /\ decorator (pj_job_id j) (gen_of items tail)
     = gen_of
         (map (fun item => <["job_id" := pj_job_id j]>
                             (<["arthur_version" := VStr __version__]> item))
              items)
         (decorator (pj_job_id j) tail).
Proof.
  split.
  - intros s'. subst s'.
    destruct (run_frame backend_args archive_args resume j w)
      as (new & _ & _ & _ & _ & Hq & Htag & _).
    by exists new.
  - induction items as [|item items IH]; simpl; congruence.
Qed.

(** ** The caller's arguments *)

Lemma retry_fuel_enough sched_args :
  (retries_left sched_args 0 < retry_fuel sched_args)%nat.
Proof.
  unfold retries_left, retry_fuel. destruct sched_args as [d|]; [|lia].
  destruct (d !! "max_retries"); [|lia]. rewrite Z.sub_0_r. lia.
Qed.

(** [execute_perceval_job] always ends. *)
Lemma execute_perceval_job_total rq_job_id backend backend_args qname task_id
    category archive_args sched_args w :
  is_Some (execute_perceval_job rq_job_id backend backend_args qname task_id
             category archive_args sched_args w).
Proof.
  unfold execute_perceval_job, execute_perceval_job_fuel.
  destruct (PercevalJob_init _ _ _ _ _) as [j0|e]; [|eauto].
  destruct (negb (has_archiving j0) && truthy_dict archive_args); [eauto|].
  destruct (retry_loop_total (retry_fuel sched_args) backend_args
              archive_args sched_args false 0 (j0, w)
              (retry_fuel_enough sched_args)) as [[[[]|e] [j' w']] ->];
    eauto.
Qed.

(** C10. A run leaves every dictionary that existed before it as it was,
    the caller's [backend_args] among them: what it changes is its own
    copy.  So the runs that [execute_perceval_job] makes are all given the
    same dictionary with the same entries, and the same archive
    arguments. *)
Theorem caller_arguments_untouched backend_args archive_args resume j w d
    rq_job_id backend qname task_id category sched_args :
  objs w !! backend_args = Some d ->
  (forall a c,
     objs w !! a = Some c ->
     objs (snd (snd (run backend_args archive_args resume (j, w)))) !! a
     = Some c)
  /\ exists ex calls,
       execute_perceval_job rq_job_id backend backend_args qname task_id
         category archive_args sched_args w = Some ex
       /\ objs (ex_world ex) !! backend_args = Some d
       /\ runs (ex_world ex) = runs w ++ calls
       /\ Forall (fun c => rc_backend_args c = backend_args
                           /\ rc_contents c = Some d
                           /\ rc_archive_args c = archive_args) calls.
Proof.
  intros Hd. split.
  - intros a c Hc.
    destruct (run_frame backend_args archive_args resume j w)
      as (_ & _ & extra & _ & _ & _ & _ & _ & _ & _ & Ho & _).
    rewrite Ho. by apply lookup_app_l_Some.
  - destruct (execute_perceval_job_total rq_job_id backend backend_args
                qname task_id category archive_args sched_args w)
      as [ex Hex].
    exists ex. revert Hex.
    unfold execute_perceval_job, execute_perceval_job_fuel.
    destruct (PercevalJob_init _ _ _ _ _) as [j0|e].
    2: { intros ?. simplify_eq. exists []. simpl. by rewrite app_nil_r. }
    destruct (negb (has_archiving j0) && truthy_dict archive_args).
    { intros ?. simplify_eq. exists []. simpl. by rewrite app_nil_r. }
    destruct (retry_loop _ _ _ _ _ _ _) as [[out [j' w']]|] eqn:Hloop;
      [|discriminate].
    destruct (retry_loop_frame _ _ _ _ _ _ _ _ _ _ _ _ Hd Hloop)
      as (rest & _ & _ & Hr & Hrest & Ho & _).
    intros Hex.
    assert (ex_world ex = w') as Hw
      by (destruct out; simplify_eq; reflexivity).
    eexists (_ :: rest). split; [exact Hex|]. rewrite Hw.
    split; [|split; [exact Hr|]].
    + destruct Ho as [extra ->]. by apply lookup_app_l_Some.
    + constructor; [done|].
      eapply Forall_impl; [exact Hrest|]. by intros c ->.
Qed.

(** ** Fresh and resumed runs *)

(** C2, amended. A run with [resume = True] whose archive arguments raise
    nothing at lines 166-167, and whose stored date converts, works on a
    copy of the caller's arguments in which ['from_date'] is the converted
    [max_date] when [max_date] is true and ['offset'] is the stored
    [offset] when that is true, whatever the caller gave for the two keys;
    the fetch, if it is reached, gets these arguments, and [nresumed] has
    grown by one. *)
Theorem resumed_run_injects backend_args archive_args j w d converted :
  objs w !! backend_args = Some d ->
  archive_ready archive_args ->
  (truthy (max_date (_result j)) = true ->
   unixtime_to_datetime (max_date (_result j)) = Returned converted) ->
  let d1 := if truthy (max_date (_result j))
            then <["from_date" := converted]> d else d in
  let d2 := if truthy (offset (_result j))
            then <["offset" := offset (_result j)]> d1 else d1 in
  let s' := snd (run backend_args archive_args true (j, w)) in
  objs (snd s') = objs w ++ [d2]
  /\ nresumed (_result (fst s')) = nresumed (_result j) + 1
  /\ (truthy (max_date (_result j)) = true ->
      d2 !! "from_date" = Some converted)
  /\ (truthy (offset (_result j)) = true ->
      d2 !! "offset" = Some (offset (_result j)))
  /\ (forall k, k <> "from_date" -> k <> "offset" -> d2 !! k = d !! k)
  /\ exists calls,
       fetches (snd s') = fetches w ++ calls
       /\ (length calls <= 1)%nat
       /\ Forall (fun c => fc_args c = d2) calls.
Proof.
  intros Hd Hready Hconv d1 d2 s'. subst s'.
  rewrite (run_resumed _ _ _ _ _ _ Hd Hready Hconv). fold d1. fold d2.
  match goal with
  | |- context [forward_items ?a ?aa ?s] =>
      destruct (forward_items_advances a aa s)
        as (new & calls & [] & _ & Hlen & Hargs)
  end.
  simpl in *.
  split; [assumption|]. split; [by destruct j|].
  split; [|split; [|split]].
  - intros Hm. subst d2 d1. rewrite Hm.
    destruct (truthy (offset (_result j)));
      [rewrite lookup_insert_ne by done|]; apply lookup_insert_eq.
  - intros Ho. subst d2. rewrite Ho. apply lookup_insert_eq.
  - intros k Hk1 Hk2. subst d2 d1.
    destruct (truthy (offset (_result j))), (truthy (max_date (_result j)));
      by rewrite ?lookup_insert_ne.
  - exists calls. split; [assumption|]. split; [assumption|].
    eapply Forall_impl; [exact Hargs|]. intros c Hc. simpl in Hc.
    rewrite lookup_app_r, Nat.sub_diag in Hc by lia.
    simpl in Hc. congruence.
Qed.

(** C7, amended. A run with [resume = False] whose archive arguments raise
    nothing at lines 166-167 is the loop started on a new record, whatever
    the record was: no last item, no date, no offset, no items, no resume,
    and the identifiers of the job; it works on a copy of the caller's
    arguments with the same entries, which the fetch, if it is reached,
    gets. *)
Theorem fresh_run_resets backend_args archive_args j w d :
  objs w !! backend_args = Some d ->
  archive_ready archive_args ->
  let fresh :=
    {| job_id := pj_job_id j; task_id := pj_task_id j;
       backend := pj_backend j; category := pj_category j;
       last_uuid := VNone; max_date := VNone; nitems := 0;
       offset := VNone; nresumed := 0 |} in
  let s' := snd (run backend_args archive_args false (j, w)) in
  run backend_args archive_args false (j, w)
  = forward_items (length (objs w)) archive_args
      (with_result fresh
         (with_archive_manager
            (manager_after archive_args (archive_manager_of j)) j),
       with_objs (objs w ++ [d]) w)
  /\ run backend_args archive_args false (j, w)
     = run backend_args archive_args false (with_result fresh j, w)
  /\ (job_id (_result (fst s')) = pj_job_id j
      /\ task_id (_result (fst s')) = pj_task_id j
      /\ backend (_result (fst s')) = pj_backend j
      /\ category (_result (fst s')) = pj_category j
      /\ nresumed (_result (fst s')) = 0)
  /\ objs (snd s') = objs w ++ [d]
  /\ exists calls,
       fetches (snd s') = fetches w ++ calls
       /\ (length calls <= 1)%nat
       /\ Forall (fun c => fc_args c = d) calls.
Proof.
  intros Hd Hready fresh s'. subst s'.
  assert (Hrun := run_fresh _ _ j _ _ Hd Hready).
  assert (Hrun' := run_fresh _ _ (with_result fresh j) _ _ Hd Hready).
  change (fresh_result j) with fresh in Hrun.
  change (fresh_result (with_result fresh j)) with fresh in Hrun'.
  split; [exact Hrun|]. split; [rewrite Hrun, Hrun'; by destruct j|].
  rewrite Hrun.
  match goal with
  | |- context [forward_items ?a ?aa ?s] =>
      destruct (forward_items_advances a aa s)
        as (new & calls & [] & _ & Hlen & Hargs)
  end.
  simpl in *.
  split; [by destruct j|]. split; [assumption|].
  exists calls. split; [assumption|]. split; [assumption|].
  eapply Forall_impl; [exact Hargs|]. intros c Hc. simpl in Hc.
  rewrite lookup_app_r, Nat.sub_diag in Hc by lia.
    simpl in Hc. congruence.
Qed.

(** ** The archive *)

(** Once lines 166-167 are through, the archive manager of the job is the
    one they set, for the rest of the run. *)
Lemma run_archive_manager backend_args archive_args resume j w d :
  objs w !! backend_args = Some d ->
  archive_ready archive_args ->
  archive_manager_of
    (fst (snd (run backend_args archive_args resume (j, w))))
  = manager_after archive_args (archive_manager_of j).
Proof.
  intros Hd Hready.
  assert (Hstart : exists r,
    fst (snd (start backend_args archive_args resume (j, w)))
    = with_result r
        (with_archive_manager
           (manager_after archive_args (archive_manager_of j)) j)).
  { unfold start, dict_copy.
    unfold bind at 1 2. unfold get_world, ret. simpl. rewrite Hd.
    unfold bind at 1 2 3. unfold modify_world, ret. simpl.
    rewrite open_archive_ready by assumption.
    destruct j as [k a b c q e f g r], w. destruct r.
    unfold prepare. destruct resume; crunch; eexists; reflexivity. }
  destruct Hstart as [r Hstart]. unfold run, bind.
  destruct (start backend_args archive_args resume (j, w))
    as [[args|e] s1]; simpl in *.
  - destruct (forward_items_advances args archive_args s1)
      as (new & calls & [] & _).
    rewrite adv_self0, Hstart. by destruct j.
  - rewrite Hstart. by destruct j.
Qed.

(** C8, amended. Building the job opens no archive and cannot fail on the
    archive path.  It is [run] that looks at the path, at its start: with
    the empty string it raises [ValueError] before the record is touched
    and before any fetch, whatever [resume] and ['fetch_from_archive']
    are, leaving only the copy of the arguments behind; without archive
    arguments the archive manager stays as it was; with a path that is
    true the manager is opened on it. *)
Theorem empty_archive_path_rejected backend_args aa resume j w d rq_job_id
    task_id backend category qname :
  objs w !! backend_args = Some d ->
  aa !! "archive_path" = Some (VStr EmptyString) ->
  run backend_args (Some aa) resume (j, w)
  = (Raised (ValueError "Archive manager path cannot be empty"),
     (j, with_objs (objs w ++ [d]) w))
  /\ archive_manager_of (fst (snd (run backend_args None resume (j, w))))
     = archive_manager_of j
  /\ match PercevalJob_init rq_job_id task_id backend category qname with
     | Returned job => archive_manager_of job = None
     | Raised e => e = NotFoundError backend
     end
  /\ forall path,
       path <> VStr EmptyString -> truthy path = true ->
       archive_manager_of
         (fst (snd (run backend_args (Some (<["archive_path" := path]> aa))
                      resume (j, w))))
       = Some (ArchiveManager path).
Proof.
  intros Hd Hpath. split; [|split; [|split]].
  - assert (Htrue : bool_decide (aa = ∅) = false).
    { apply bool_decide_eq_false. intros ->. by rewrite lookup_empty in Hpath. }
    unfold run, start, dict_copy.
    unfold bind at 1 2 3. unfold get_world, ret. simpl. rewrite Hd.
    unfold bind at 1 2 3. unfold modify_world, ret. simpl.
    unfold open_archive, truthy_dict, subscript, getitem. rewrite Htrue, Hpath.
    unfold initialize_archive_manager. simpl. by destruct j, w.
  - rewrite (run_archive_manager _ _ _ _ _ _ Hd) by (by left).
    reflexivity.
  - unfold PercevalJob_init. by destruct (find_backends !! backend).
  - intros path Hne Htruthy.
    assert (Hsub : subscript (Some (<["archive_path" := path]> aa))
                     "archive_path" = Returned path).
    { unfold subscript, getitem. by rewrite lookup_insert_eq. }
    assert (Htrue : truthy_dict (Some (<["archive_path" := path]> aa))
                    = true).
    { simpl. apply negb_true_iff, bool_decide_eq_false.
      intros Hempty. apply (f_equal (fun m : dict => m !! "archive_path"))
        in Hempty. by rewrite lookup_insert_eq, lookup_empty in Hempty. }
    rewrite (run_archive_manager _ _ _ _ _ _ Hd) by (right; eauto).
    unfold manager_after. by rewrite Htrue, Hsub, Htruthy.
Qed.

(** ** The largest date *)

(** Once [max_date] is a positive number it never gets smaller, as long as
    the dates of the items are numbers. *)
Lemma max_date_grows_when_positive item s m :
  max_date (_result (fst s)) = VInt m ->
  0 < m ->
  (forall v, item !! "updated_on" = Some v -> exists t, v = VInt t) ->
  exists m',
    max_date (_result (fst (snd (process_item item s)))) = VInt m'
    /\ m <= m'.
Proof.
  destruct s as [[k a b c q e f g r] w]. destruct r, w. simpl.
  intros -> Hm Hnum. unfold process_item.
  assert (Htrue : (m =? 0) = false) by (apply Z.eqb_neq; lia).
  destruct (item !! "updated_on") as [v|] eqn:Hv.
  - destruct (Hnum v eq_refl) as [t ->].
    crunch; try (eexists; split; [reflexivity|lia]); try congruence.
    all: match goal with
         | Hlt : (_ <? _) = true |- _ => apply Z.ltb_lt in Hlt
         end.
    all: eexists; split; [reflexivity|lia].
  - crunch; try (eexists; split; [reflexivity|lia]); congruence.
Qed.

(** * Further properties of the code *)

(** ** Building the job *)

(** X1. A backend name that Perceval does not know makes the constructor
    raise [NotFoundError] on that name, in place of the [KeyError] of the
    lookup; [execute_perceval_job] lets that exception through before it
    looks at the archive arguments, whatever they are, with no job built
    and the world as it was. *)
Theorem unknown_backend_not_found rq_job_id backend backend_args qname
    task_id category archive_args sched_args w :
  find_backends !! backend = None ->
  PercevalJob_init rq_job_id task_id backend category qname
  = Raised (NotFoundError backend)
  /\ execute_perceval_job rq_job_id backend backend_args qname task_id
       category archive_args sched_args w
     = Some {| ex_outcome := Raised (NotFoundError backend);
               ex_job := None; ex_world := w |}.
Proof.
  intros Hk.
  unfold execute_perceval_job, execute_perceval_job_fuel, PercevalJob_init.
  by rewrite Hk.
Qed.

(** ** Archive arguments *)

Lemma truthy_dict_nonempty (aa : dict) :
  aa <> ∅ -> truthy_dict (Some aa) = true.
Proof.
  intros Hne. simpl. by apply negb_true_iff, bool_decide_eq_false.
Qed.

(** X2. Archive arguments that lack a key which [run] reads make it raise
    [KeyError] on that key: ['archive_path'] at line 167, before the
    record is touched; ['fetch_from_archive'] at line 227 and
    ['archived_after'] at line 231, after a fresh start of the record but
    before any fetch.  In each case nothing is fetched or queued. *)
Theorem archive_args_missing_key backend_args aa resume j w d :
  objs w !! backend_args = Some d ->
  aa <> ∅ ->
  (aa !! "archive_path" = None ->
   run backend_args (Some aa) resume (j, w)
   = (Raised (KeyError "archive_path"), (j, with_objs (objs w ++ [d]) w)))
  /\ (archive_ready (Some aa) ->
      aa !! "fetch_from_archive" = None ->
      run backend_args (Some aa) false (j, w)
      = (Raised (KeyError "fetch_from_archive"),
         (with_result (fresh_result j)
            (with_archive_manager
               (manager_after (Some aa) (archive_manager_of j)) j),
          with_objs (objs w ++ [d]) w)))
  /\ (forall v,
        archive_ready (Some aa) ->
        aa !! "fetch_from_archive" = Some v -> truthy v = true ->
        aa !! "archived_after" = None ->
        run backend_args (Some aa) false (j, w)
        = (Raised (KeyError "archived_after"),
           (with_result (fresh_result j)
              (with_archive_manager
                 (manager_after (Some aa) (archive_manager_of j)) j),
            with_objs (objs w ++ [d]) w))).
Proof.
  intros Hd Hne. pose proof (truthy_dict_nonempty aa Hne) as Htrue.
  split; [|split].
  - intros Hpath. unfold run, start, dict_copy.
    unfold bind at 1 2 3. unfold get_world, ret. simpl. rewrite Hd.
    unfold bind at 1 2 3. unfold modify_world, ret. simpl.
    unfold open_archive. rewrite Htrue.
    unfold subscript, getitem. rewrite Hpath. by destruct j, w.
  - intros Hready Hkey. rewrite (run_fresh _ _ _ _ _ Hd Hready).
    unfold forward_items, _execute, metadata, execute_body.
    rewrite Htrue. unfold subscript, getitem. rewrite Hkey. reflexivity.
  - intros v Hready Hkey Hv Hafter. rewrite (run_fresh _ _ _ _ _ Hd Hready).
    unfold forward_items, _execute, metadata, execute_body.
    rewrite Htrue. unfold subscript, getitem. rewrite Hkey, Hafter.
    run_m. rewrite Hv. reflexivity.
Qed.

(** ** Which fetch a run makes *)

(** A run that gets past lines 164-178, as the [for] statement started
    on the copy of the arguments and on the record that [resume] asks
    for. *)
Lemma run_started backend_args archive_args resume j w d converted :
  objs w !! backend_args = Some d ->
  archive_ready archive_args ->
  (resume = true -> truthy (max_date (_result j)) = true ->
   unixtime_to_datetime (max_date (_result j)) = Returned converted) ->
  let m := manager_after archive_args (archive_manager_of j) in
  let d1 := if resume && truthy (max_date (_result j))
            then <["from_date" := converted]> d else d in
  let args := if resume && truthy (offset (_result j))
              then <["offset" := offset (_result j)]> d1 else d1 in
  let j1 :=
    with_result
      (if resume
       then set_nresumed (nresumed (_result j) + 1) (_result j)
       else fresh_result j)
      (with_archive_manager m j) in
  run backend_args archive_args resume (j, w)
  = forward_items (length (objs w)) archive_args
      (j1, with_objs (objs w ++ [args]) w).
Proof.
  intros Hd Hready Hconv m d1 args j1. subst m d1 args j1.
  destruct resume; simpl.
  - apply run_resumed; auto.
  - by apply run_fresh.
Qed.

(** Starting the generator of [_execute]: either it raises and nothing has
    changed, or one fetch has been logged and the generator is the
    decorated source of that fetch. *)
Lemma execute_source args archive_args j w :
  (exists e, _execute args archive_args (j, w) = (Raised e, (j, w)))
  \/ exists c,
       _execute args archive_args (j, w)
       = (Returned
            (decorator (pj_job_id j)
               (source_of (_bklass j) (length (fetches w)) c (pj_category j)
                  archive_args)),
          (j, with_fetches (fetches w ++ [c]) w)).
Proof.
  destruct j as [k0 a b c q e f g r], w. destruct r.
  unfold _execute, metadata, execute_body, subscript, source_of.
  destruct archive_args as [aa|]; crunch.
  all: first [ left; eexists; reflexivity
             | right; eexists {| fc_mode := Live |}; simpl; reflexivity
             | right; eexists {| fc_mode := FromArchive |}; simpl;
               reflexivity ].
Qed.

(** The [for] statement with archive arguments whose keys are there: one
    fetch, and the loop over what it gave. *)
Lemma forward_items_once args archive_args j w a :
  objs w !! args = Some a ->
  (truthy_dict archive_args = true ->
   exists v,
     subscript archive_args "fetch_from_archive" = Returned v
     /\ (truthy v = true ->
         exists after,
           subscript archive_args "archived_after" = Returned after)) ->
  exists g c,
    forward_items args archive_args (j, w)
    = for_each g process_item (j, with_fetches (fetches w ++ [c]) w).
Proof.
  intros Ha Hkeys.
  destruct (execute_source args archive_args j w) as [[e He]|[c Hc]].
  - exfalso. revert He.
    unfold _execute, metadata, execute_body.
    destruct (truthy_dict archive_args) eqn:Htrue.
    + destruct (Hkeys eq_refl) as (v & Hv & Hafter). rewrite Hv.
      destruct (truthy v) eqn:Hvt.
      * destruct (Hafter eq_refl) as [after Hafter']. rewrite Hafter'.
        run_m. rewrite Hvt. run_m. rewrite Ha. run_m. discriminate.
      * run_m. rewrite Hvt. run_m. rewrite Ha. run_m. discriminate.
    + run_m. rewrite Ha. run_m. discriminate.
  - do 2 eexists. unfold forward_items, bind. rewrite Hc. reflexivity.
Qed.

(** X3. A run that gets past lines 164-178 is the loop of lines 180-189
    over one generator of Perceval: that of [perceval.fetch] when there are
    no archive arguments or ['fetch_from_archive'] is false, that of
    [perceval.fetch_from_archive], given the category of the job and
    ['archived_after'], when it is true.  Either is called once, with the
    copy of the arguments (the resumed values in it) and with the archive
    manager as lines 166-167 left it. *)
Theorem run_is_loop_over_source backend_args archive_args resume j w d
    converted :
  objs w !! backend_args = Some d ->
  archive_ready archive_args ->
  (resume = true -> truthy (max_date (_result j)) = true ->
   unixtime_to_datetime (max_date (_result j)) = Returned converted) ->
  let m := manager_after archive_args (archive_manager_of j) in
  let d1 := if resume && truthy (max_date (_result j))
            then <["from_date" := converted]> d else d in
  let args := if resume && truthy (offset (_result j))
              then <["offset" := offset (_result j)]> d1 else d1 in
  let j1 :=
    with_result
      (if resume
       then set_nresumed (nresumed (_result j) + 1) (_result j)
       else fresh_result j)
      (with_archive_manager m j) in
  let w1 mode :=
    with_fetches
      (fetches w ++ [{| fc_mode := mode; fc_args := args; fc_manager := m |}])
      (with_objs (objs w ++ [args]) w) in
  (truthy_dict archive_args = false
   \/ (exists v, subscript archive_args "fetch_from_archive" = Returned v
                 /\ truthy v = false) ->
   run backend_args archive_args resume (j, w)
   = for_each
       (decorator (pj_job_id j)
          (fetch (_bklass j) (length (fetches w)) args m))
       process_item (j1, w1 Live))
  /\ (forall v after,
        truthy_dict archive_args = true ->
        subscript archive_args "fetch_from_archive" = Returned v ->
        truthy v = true ->
        subscript archive_args "archived_after" = Returned after ->
        run backend_args archive_args resume (j, w)
        = for_each
            (decorator (pj_job_id j)
               (fetch_from_archive (_bklass j) (length (fetches w)) args m
                  (pj_category j) after))
            process_item (j1, w1 FromArchive)).
Proof.
  intros Hd Hready Hconv m d1 args j1 w1.
  rewrite (run_started _ _ _ _ _ _ converted Hd Hready Hconv).
  fold m d1 args j1.
  assert (Hlook : (objs w ++ [args]) !! length (objs w) = Some args).
  { rewrite lookup_app_r, Nat.sub_diag by lia. reflexivity. }
  unfold forward_items, _execute, metadata, execute_body.
  split.
  - intros [Hno|(v & Hv & Hfalse)].
    + rewrite Hno. run_m. rewrite Hlook. run_m. by destruct j, w.
    + rewrite Hv. run_m. rewrite Hfalse.
      destruct (truthy_dict archive_args); run_m; rewrite Hlook; run_m;
        by destruct j, w.
  - intros v after Htrue Hv Hvt Hafter. rewrite Htrue, Hv, Hafter.
    run_m. rewrite Hvt. run_m. rewrite Hlook. run_m. by destruct j, w.
Qed.

(** A resumed start that stops at the conversion of line 175. *)
Lemma start_conversion_failure backend_args archive_args j w d e :
  objs w !! backend_args = Some d ->
  archive_ready archive_args ->
  truthy (max_date (_result j)) = true ->
  unixtime_to_datetime (max_date (_result j)) = Raised e ->
  start backend_args archive_args true (j, w)
  = (Raised e,
     (with_archive_manager
        (manager_after archive_args (archive_manager_of j)) j,
      with_objs (objs w ++ [d]) w)).
Proof.
  intros Hd Hready Hm Hconv. unfold start, dict_copy.
  unfold bind at 1 2. unfold get_world, ret. simpl. rewrite Hd.
  unfold bind at 1 2 3. unfold modify_world, ret. simpl.
  rewrite open_archive_ready by assumption.
  unfold prepare. run_m. rewrite Hm. run_m. rewrite Hconv. reflexivity.
Qed.

(** X4. A resumed run whose stored date does not convert raises the
    exception of [unixtime_to_datetime] at line 175: the archive manager
    has been set by then, but the record is as it was ([nresumed]
    included), the copy of the arguments holds what the caller gave, and
    nothing is fetched or queued. *)
Theorem resume_conversion_failure backend_args archive_args j w d e :
  objs w !! backend_args = Some d ->
  archive_ready archive_args ->
  truthy (max_date (_result j)) = true ->
  unixtime_to_datetime (max_date (_result j)) = Raised e ->
  run backend_args archive_args true (j, w)
  = (Raised e,
     (with_archive_manager
        (manager_after archive_args (archive_manager_of j)) j,
      with_objs (objs w ++ [d]) w)).
Proof.
  intros Hd Hready Hm Hconv. unfold run, bind.
  by rewrite (start_conversion_failure _ _ _ _ _ _ Hd Hready Hm Hconv).
Qed.

(** ** The decorator *)

(** X6. [metadata] changes nothing of an item but the two fields it sets:
    the generator it returns has as many items as the source and ends as
    the source does; each item has ['job_id'] and ['arthur_version'] set,
    also when the source had put other values there, and every other
    field as the source gave it. *)
Theorem metadata_keeps_other_fields jid g :
  length (gen_items (decorator jid g)) = length (gen_items g)
  /\ gen_end (decorator jid g) = gen_end g
  /\ forall i item,
       gen_items g !! i = Some item ->
       exists item',
         gen_items (decorator jid g) !! i = Some item'
         /\ item' !! "job_id" = Some jid
         /\ item' !! "arthur_version" = Some (VStr __version__)
         /\ forall k, k <> "job_id" -> k <> "arthur_version" ->
                      item' !! k = item !! k.
Proof.
  split; [|split].
  - by rewrite decorator_items, length_map.
  - apply decorator_end.
  - intros i item Hi. rewrite decorator_items.
    eexists. split; [by rewrite list_lookup_fmap, Hi|].
    split; [apply lookup_insert_eq|].
    split; [rewrite lookup_insert_ne by done; apply lookup_insert_eq|].
    intros k Hk1 Hk2. by rewrite !lookup_insert_ne.
Qed.

(** ** A run and its source *)

(** Every run either stops before its loop, with nothing fetched and
    nothing queued, or is the loop over the decorated source of the one
    fetch it made, started on the record that [resume] asks for. *)
Lemma run_loop backend_args archive_args resume j w :
  (exists e j1 w1,
     run backend_args archive_args resume (j, w) = (Raised e, (j1, w1))
     /\ queue w1 = queue w /\ fetches w1 = fetches w)
  \/ exists j1 w1 c,
       run backend_args archive_args resume (j, w)
       = for_each
           (decorator (pj_job_id j)
              (source_of (_bklass j) (length (fetches w)) c (pj_category j)
                 archive_args))
           process_item (j1, w1)
       /\ (exists m, j1 = with_result (_result j1)
                            (with_archive_manager m j))
       /\ _result j1
          = (if resume
             then set_nresumed (nresumed (_result j) + 1) (_result j)
             else fresh_result j)
       /\ queue w1 = queue w
       /\ fetches w1 = fetches w ++ [c].
Proof.
  destruct (run_shape backend_args archive_args resume j w)
    as [(e & j1 & w1 & Hrun & _ & _ & Hq & Hf & _)
       |(j1 & d & Hrun & [m Hj1] & Hres)].
  - left. by exists e, j1, w1.
  - rewrite Hrun. unfold forward_items, bind.
    assert (Hsame : _bklass j1 = _bklass j /\ pj_job_id j1 = pj_job_id j
                    /\ pj_category j1 = pj_category j).
    { rewrite Hj1. by destruct j. }
    destruct Hsame as (Hk & Hid & Hcat).
    destruct (execute_source (length (objs w)) archive_args j1
                (with_objs (objs w ++ [d]) w)) as [[e ->]|[c ->]].
    + left. do 3 eexists. split; [reflexivity|]. by destruct w.
    + right. rewrite Hk, Hid, Hcat. do 3 eexists.
      split; [destruct w; reflexivity|].
      split; [by exists m|]. split; [assumption|]. by destruct w.
Qed.

Lemma prefix_of_map {A B} (f : A -> B) (l : list B) (l' : list A) :
  l `prefix_of` map f l' ->
  exists l0, l = map f l0 /\ l0 `prefix_of` l'.
Proof.
  intros [k Hk]. exists (take (length l) l'). split.
  - change (map f (take (length l) l')) with (f <$> take (length l) l').
    rewrite fmap_take. change (f <$> l') with (map f l').
    rewrite Hk. by rewrite take_app_length.
  - apply prefix_take.
Qed.

(** X7. Within one run the queue receives the items of the source of its
    fetch in the order of the source, each once, with the fields of
    [metadata] set: what was appended is a prefix of the items of the
    source, and all of them, the source having ended normally, when the run
    returns.  A run that made no fetch raised and appended nothing. *)
Theorem run_forwards_source_in_order backend_args archive_args resume j w :
  let r := run backend_args archive_args resume (j, w) in
  (fetches (snd (snd r)) = fetches w
   /\ queue (snd (snd r)) = queue w
   /\ exists e, fst r = Raised e)
  \/ exists c new,
       fetches (snd (snd r)) = fetches w ++ [c]
       /\ let g := source_of (_bklass j) (length (fetches w)) c
                     (pj_category j) archive_args in
          queue (snd (snd r))
          = queue w
            ++ map (fun item => (qitems j, with_metadata (pj_job_id j) item))
                 new
          /\ new `prefix_of` gen_items g
          /\ (fst r = Returned tt -> new = gen_items g /\ gen_end g = None).
Proof.
  intros r. subst r.
  destruct (run_loop backend_args archive_args resume j w)
    as [(e & j1 & w1 & -> & Hq & Hf)
       |(j1 & w1 & c & -> & [m Hj1] & _ & Hq & Hf)]; simpl.
  - left. eauto.
  - right.
    match goal with
    | |- context [for_each ?g process_item ?s] =>
        destruct (for_each_advances g s) as (new & Hadv & Hpre & Hret)
    end.
    rewrite decorator_items in Hpre.
    apply prefix_of_map in Hpre as (new0 & -> & Hpre).
    exists c, new0.
    rewrite (adv_fetches _ _ _ _ Hadv), (adv_queue _ _ _ _ Hadv).
    simpl. rewrite app_nil_r, Hq, map_map.
    assert (Hqi : qitems j1 = qitems j) by (rewrite Hj1; by destruct j).
    rewrite Hqi. split; [assumption|]. split; [reflexivity|].
    split; [assumption|].
    intros Hr. destruct (Hret Hr) as [Hall Hend].
    rewrite decorator_end in Hend. split; [|assumption].
    rewrite decorator_items in Hall.
    destruct Hpre as [k Hsrc]. rewrite Hsrc in Hall |- *.
    rewrite map_app in Hall.
    apply (f_equal length) in Hall.
    rewrite length_app, !length_map in Hall.
    destruct k; [by rewrite app_nil_r|simpl in Hall; lia].
Qed.

(** ** The record after a run that returns *)

Lemma process_item_returned item s s1 :
  process_item item s = (Returned tt, s1) ->
  item !! "uuid" = Some (last_uuid (_result (fst s1)))
  /\ offset (_result (fst s1))
     = default (offset (_result (fst s))) (item !! "offset").
Proof.
  destruct s as [[k a b c q e f g r] w]. destruct r, w.
  unfold process_item. intros Hp. crunch; try done.
  all: match goal with
       | Hb : bool_decide _ = false |- _ =>
           apply bool_decide_eq_false in Hb;
           destruct (item !! "offset") eqn:Ho; [destruct Hb; by eexists|done]
       end.
Qed.

Lemma for_each_latest g s s' :
  for_each g process_item s = (Returned tt, s') ->
  match last (gen_items g) with
  | Some item => item !! "uuid" = Some (last_uuid (_result (fst s')))
  | None => last_uuid (_result (fst s')) = last_uuid (_result (fst s))
  end
  /\ offset (_result (fst s'))
     = latest "offset" (gen_items g) (offset (_result (fst s))).
Proof.
  revert s. induction g as [|e|item rest IH]; intros s; simpl.
  - unfold ret. intros ?. by simplify_eq.
  - discriminate.
  - unfold bind.
    destruct (process_item item s) as [[[]|e] s1] eqn:Hp; [|discriminate].
    intros Hrest. destruct (process_item_returned _ _ _ Hp) as [Hu Ho].
    destruct (IH s1 Hrest) as [IHu IHo].
    split.
    + destruct (gen_items rest) as [|item' items] eqn:Hitems;
        simpl in *; [by rewrite IHu|].
      destruct (last (item' :: items)) eqn:Hlast; [assumption|].
      apply last_None in Hlast. discriminate.
    + unfold latest in *. simpl. by rewrite IHo, Ho.
Qed.

(** A run that returns, as the loop that it was. *)
Lemma run_returned backend_args archive_args resume j w s' new :
  run backend_args archive_args resume (j, w) = (Returned tt, s') ->
  queue (snd s') = queue w ++ map (pair (qitems j)) new ->
  exists g s1,
    for_each g process_item s1 = (Returned tt, s')
    /\ gen_items g = new
    /\ _result (fst s1)
       = (if resume
          then set_nresumed (nresumed (_result j) + 1) (_result j)
          else fresh_result j).
Proof.
  intros Hrun Hqueue.
  destruct (run_loop backend_args archive_args resume j w)
    as [(e & j1 & w1 & He & _)
       |(j1 & w1 & c & Hloop & [m Hj1] & Hres & Hq & _)];
    [congruence|].
  rewrite Hrun in Hloop. symmetry in Hloop.
  do 2 eexists. split; [exact Hloop|]. split; [|exact Hres].
  match type of Hloop with
  | for_each ?g process_item ?s = _ =>
      destruct (for_each_advances g s) as (new0 & Hadv & _ & Hret)
  end.
  rewrite Hloop in Hadv, Hret. destruct (Hret eq_refl) as [-> _].
  pose proof (adv_queue _ _ _ _ Hadv) as Hq2. simpl in Hq2.
  assert (Hqi : qitems j1 = qitems j) by (rewrite Hj1; by destruct j).
  rewrite Hq, Hqi, Hqueue in Hq2.
  apply app_inv_head in Hq2.
  change (map (pair (qitems j)) new) with (pair (qitems j) <$> new) in Hq2.
  match type of Hq2 with
  | _ = map _ ?l => change (map (pair (qitems j)) l)
                      with (pair (qitems j) <$> l) in Hq2
  end.
  symmetry. eapply (inj (fmap (pair (qitems j)))). exact Hq2.
Qed.

(** X8. After a run that returns, [last_uuid] is the ['uuid'] of the last
    item that the run appended to the queue; when it appended none,
    [last_uuid] is what it was for a resumed run and [None] for a fresh
    one. *)
Theorem last_uuid_of_last_item backend_args archive_args resume j w s' new :
  run backend_args archive_args resume (j, w) = (Returned tt, s') ->
  queue (snd s') = queue w ++ map (pair (qitems j)) new ->
  match last new with
  | Some item => item !! "uuid" = Some (last_uuid (_result (fst s')))
  | None =>
      last_uuid (_result (fst s'))
      = (if resume then last_uuid (_result j) else VNone)
  end.
Proof.
  intros Hrun Hqueue.
  destruct (run_returned _ _ _ _ _ _ _ Hrun Hqueue)
    as (g & s1 & Hloop & <- & Hres).
  destruct (for_each_latest _ _ _ Hloop) as [Hu _].
  destruct (last (gen_items g)); [assumption|].
  rewrite Hu, Hres. by destruct resume.
Qed.

(** X9. After a run that returns, [offset] is the ['offset'] of the last
    appended item that has one, whether or not an earlier item had a
    larger one; when no appended item has one, [offset] is what it was for
    a resumed run and [None] for a fresh one. *)
Theorem offset_of_latest_item backend_args archive_args resume j w s' new :
  run backend_args archive_args resume (j, w) = (Returned tt, s') ->
  queue (snd s') = queue w ++ map (pair (qitems j)) new ->
  offset (_result (fst s'))
  = latest "offset" new (if resume then offset (_result j) else VNone).
Proof.
  intros Hrun Hqueue.
  destruct (run_returned _ _ _ _ _ _ _ Hrun Hqueue)
    as (g & s1 & Hloop & <- & Hres).
  destruct (for_each_latest _ _ _ Hloop) as [_ Ho].
  rewrite Ho, Hres. by destruct resume.
Qed.




(** ** The record after a run that its source ended *)

Lemma lookup_with_metadata jid (item : dict) k :
  k <> "job_id" -> k <> "arthur_version" ->
  with_metadata jid item !! k = item !! k.
Proof.
  intros Hk1 Hk2. unfold with_metadata. by rewrite !lookup_insert_ne.
Qed.

Lemma latest_with_metadata jid k items v :
  k <> "job_id" -> k <> "arthur_version" ->
  latest k (map (with_metadata jid) items) v = latest k items v.
Proof.
  intros Hk1 Hk2. revert v. unfold latest.
  induction items as [|item items IH]; intros v; simpl; [reflexivity|].
  by rewrite lookup_with_metadata, IH.
Qed.

Lemma decorator_gen_of jid items tail :
  decorator jid (gen_of items tail)
  = gen_of (map (with_metadata jid) items) (decorator jid tail).
Proof.
  induction items as [|item items IH]; simpl; [reflexivity|].
  by rewrite IH.
Qed.

Lemma gen_items_of items : gen_items (gen_of items GDone) = items.
Proof. induction items; simpl; congruence. Qed.

(** The body of the loop on an item that has its ['uuid'] and a number for
    date, when the stored date is a number or [None]: it returns, and the
    date it leaves is [later_date]. *)
Lemma process_item_int_date item s t :
  is_Some (item !! "uuid") ->
  item !! "updated_on" = Some (VInt t) ->
  (max_date (_result (fst s)) = VNone
   \/ exists m, max_date (_result (fst s)) = VInt m) ->
  exists s1,
    process_item item s = (Returned tt, s1)
    /\ max_date (_result (fst s1))
       = later_date (max_date (_result (fst s))) t.
Proof.
  destruct s as [[k a b c q e f g r] w]. destruct r, w. simpl.
  intros [u Hu] Ht Hbase. unfold process_item, later_date.
  destruct (item !! "offset") as [o|] eqn:Ho.
  all: destruct Hbase as [->|[m ->]]; run_m; rewrite Hu; run_m.
  all: try (destruct (m =? 0) eqn:Hz; run_m; rewrite ?Ht; run_m;
            [|destruct (m <? t) eqn:Hlt; run_m; rewrite ?Ht; run_m]).
  all: rewrite ?Ht, ?Ho; run_m; rewrite ?Ho; run_m.
  all: eexists; split; reflexivity.
Qed.

(** The loop over a source that yields such items and then goes on as
    [tail]: the items are processed one after the other, and the loop goes
    on over [tail] from the state that the loop over the items alone
    returns in. *)
Lemma for_each_int_dates items dates tail s :
  Forall (fun item => is_Some (item !! "uuid")) items ->
  Forall2 (fun item t => item !! "updated_on" = Some (VInt t)) items dates ->
  (max_date (_result (fst s)) = VNone
   \/ exists m, max_date (_result (fst s)) = VInt m) ->
  exists s1,
    for_each (gen_of items GDone) process_item s = (Returned tt, s1)
    /\ for_each (gen_of items tail) process_item s
       = for_each tail process_item s1
    /\ max_date (_result (fst s1))
       = foldl later_date (max_date (_result (fst s))) dates.
Proof.
  intros Hu Hd. revert s Hu.
  induction Hd as [|item t items dates Ht Hd IH]; intros s Hu Hbase.
  - exists s. simpl. done.
  - apply Forall_cons in Hu as [Hu1 Hu].
    destruct (process_item_int_date item s t Hu1 Ht Hbase)
      as (s1 & Hp & Hm).
    assert (Hbase1 : max_date (_result (fst s1)) = VNone
                     \/ exists m, max_date (_result (fst s1)) = VInt m).
    { rewrite Hm. right. unfold later_date.
      destruct Hbase as [->|[m ->]]; [eauto|]. case_match; eauto. }
    destruct (IH s1 Hu Hbase1) as (s2 & Hdone & Htail & Hm2).
    exists s2. simpl. unfold bind. rewrite Hp.
    split; [exact Hdone|]. split; [exact Htail|]. by rewrite Hm2, Hm.
Qed.

(** Among positive dates [later_date] keeps the largest: after the dates
    [dates] the stored date is at least each of them and at least the date
    stored before, and it is one of these. *)
Lemma later_date_largest dates base M :
  Forall (fun t => 0 < t) dates ->
  (base = VNone \/ exists m, base = VInt m) ->
  (forall m, base = VInt m -> 0 < m) ->
  foldl later_date base dates = VInt M ->
  Forall (fun t => t <= M) dates
  /\ (forall m, base = VInt m -> m <= M)
  /\ (M ∈ dates \/ base = VInt M).
Proof.
  intros Hpos. revert base.
  induction Hpos as [|t dates Ht Hpos IH]; intros base Hnum Hbase Hfold;
    simpl in Hfold.
  - subst base. split; [constructor|]. split; [|by right].
    intros m Hm. injection Hm as ->. lia.
  - assert (Hstep : exists x, later_date base t = VInt x /\ 0 < x /\ t <= x
                              /\ (forall m, base = VInt m -> m <= x)
                              /\ (x = t \/ base = VInt x)).
    { unfold later_date. destruct Hnum as [->|[m ->]].
      { exists t. repeat split; [lia|lia|discriminate|by left]. }
      specialize (Hbase m eq_refl).
      destruct (m =? 0) eqn:Hz; [apply Z.eqb_eq in Hz; lia|]. simpl.
      destruct (m <? t) eqn:Hlt.
      - apply Z.ltb_lt in Hlt. exists t. repeat split; [lia|lia| |by left].
        intros m' Hm'. injection Hm' as ->. lia.
      - apply Z.ltb_ge in Hlt. exists m. repeat split; [lia|lia| |by right].
        intros m' Hm'. injection Hm' as ->. lia. }
    destruct Hstep as (x & Hx & Hxpos & Htx & Hfrom & Hwhich).
    rewrite Hx in Hfold.
    destruct (IH (VInt x)) as (Hle & Hge & Hin); [eauto| |assumption|].
    { intros m Hm. injection Hm as ->. assumption. }
    specialize (Hge x eq_refl).
    split; [constructor; [lia|assumption]|]. split.
    + intros m Hm. specialize (Hfrom m Hm). lia.
    + destruct Hin as [Hin|Hin]; [left; by right|].
      injection Hin as ->.
      destruct Hwhich as [->|Hb]; [left; by left|by right].
Qed.

(** C3. A run whose source yields [items] and then raises [e], and which
    appended each of these items to the queue, raises [e] itself; the
    record then holds what the loop set for every one of the items:
    [nitems] has grown by their number, [last_uuid] is the ['uuid'] of the
    last of them, [max_date] is what lines 186-187 make of their dates one
    after the other, [offset] is the ['offset'] of the last item that has
    one.  The values are counted from the record that the run started on:
    the stored one for a resumed run, a new one for a fresh run.  Nothing
    is taken back: among positive dates, [max_date] is at least the date
    of every forwarded item and at least the date stored before.  The
    items are those that the loop body accepts: each has its ['uuid'] and a
    number for ['updated_on']. *)
Theorem source_failure_keeps_progress backend_args archive_args resume j w c
    items dates e :
  let r := run backend_args archive_args resume (j, w) in
  let before := if resume then _result j else fresh_result j in
  let after := _result (fst (snd r)) in
  fetches (snd (snd r)) = fetches w ++ [c] ->
  source_of (_bklass j) (length (fetches w)) c (pj_category j) archive_args
  = gen_of items (GRaise e) ->
  queue (snd (snd r))
  = queue w
    ++ map (fun item => (qitems j, with_metadata (pj_job_id j) item)) items ->
  Forall (fun item => is_Some (item !! "uuid")) items ->
  Forall2 (fun item t => item !! "updated_on" = Some (VInt t)) items dates ->
  (resume = true ->
   max_date (_result j) = VNone \/ exists m, max_date (_result j) = VInt m) ->
  fst r = Raised e
  /\ nitems after = nitems before + Z.of_nat (length items)
  /\ match last items with
     | Some item => item !! "uuid" = Some (last_uuid after)
     | None => last_uuid after = last_uuid before
     end
  /\ max_date after = foldl later_date (max_date before) dates
  /\ offset after = latest "offset" items (offset before)
  /\ nresumed after = (if resume then nresumed (_result j) + 1 else 0)
  /\ (Forall (fun t => 0 < t) dates ->
      (forall m, max_date before = VInt m -> 0 < m) ->
      forall M,
        max_date after = VInt M ->
        Forall (fun t => t <= M) dates
        /\ (forall m, max_date before = VInt m -> m <= M)
        /\ (M ∈ dates \/ max_date before = VInt M)).
Proof.
  intros r before after Hfetch Hsrc _ Huuid Hdates Hbase.
  subst r before after.
  destruct (run_loop backend_args archive_args resume j w)
    as [(e0 & j1 & w1 & Hrun & _ & Hf)
       |(j1 & w1 & c' & Hrun & [m Hj1] & Hres & _ & Hf)].
  { rewrite Hrun in Hfetch. simpl in Hfetch. rewrite Hf in Hfetch.
    apply (f_equal length) in Hfetch. rewrite length_app in Hfetch.
    simpl in Hfetch. lia. }
  rewrite Hrun in Hfetch |- *.
  match type of Hrun with
  | _ = for_each ?g process_item ?s =>
      destruct (for_each_advances g s) as (new0 & Hadv0 & _)
  end.
  pose proof (adv_fetches _ _ _ _ Hadv0) as Hf0. simpl in Hf0.
  rewrite app_nil_r, Hf, Hfetch in Hf0.
  apply app_inv_head in Hf0. injection Hf0 as <-.
  clear new0 Hadv0 Hfetch Hrun. rewrite Hsrc, decorator_gen_of. simpl.
  set (new := map (with_metadata (pj_job_id j)) items).
  assert (Hbase1 : max_date (_result (fst (j1, w1))) = VNone
                   \/ exists x, max_date (_result (fst (j1, w1))) = VInt x).
  { simpl. rewrite Hres. destruct resume; [by apply Hbase|by left]. }
  assert (Huuid' : Forall (fun item => is_Some (item !! "uuid")) new).
  { subst new. apply Forall_map. eapply Forall_impl; [exact Huuid|].
    intros item Hi. simpl. by rewrite lookup_with_metadata. }
  assert (Hdates' : Forall2 (fun item t =>
                               item !! "updated_on" = Some (VInt t))
                      new dates).
  { subst new. clear -Hdates.
    induction Hdates; simpl; constructor; [|assumption].
    by rewrite lookup_with_metadata. }
  destruct (for_each_int_dates new dates (GRaise e) (j1, w1) Huuid' Hdates'
              Hbase1) as (s1 & Hdone & -> & Hmax).
  simpl. split; [reflexivity|].
  destruct (for_each_advances (gen_of new GDone) (j1, w1))
    as (new1 & Hadv & _ & Hall).
  rewrite Hdone in Hadv, Hall. destruct (Hall eq_refl) as [-> _].
  rewrite gen_items_of in Hadv.
  destruct (for_each_latest _ _ _ Hdone) as [Hlast Hoffset].
  rewrite gen_items_of in Hlast, Hoffset. simpl in *.
  assert (Hfields :
    nitems (_result j1) = nitems (if resume then _result j else fresh_result j)
    /\ last_uuid (_result j1)
       = last_uuid (if resume then _result j else fresh_result j)
    /\ max_date (_result j1)
       = max_date (if resume then _result j else fresh_result j)
    /\ offset (_result j1)
       = offset (if resume then _result j else fresh_result j)
    /\ nresumed (_result j1)
       = (if resume then nresumed (_result j) + 1 else 0)).
  { rewrite Hres. by destruct resume. }
  destruct Hfields as (Hn & Hl & Hm & Ho & Hr).
  rewrite Hm in Hmax.
  split.
  { rewrite (adv_nitems _ _ _ _ Hadv). simpl. subst new.
    by rewrite length_map, Hn. }
  split.
  { subst new.
    change (map (with_metadata (pj_job_id j)) items)
      with (with_metadata (pj_job_id j) <$> items) in Hlast.
    rewrite fmap_last in Hlast.
    destruct (last items) as [item|]; simpl in Hlast.
    - by rewrite lookup_with_metadata in Hlast.
    - congruence. }
  split; [exact Hmax|].
  split.
  { subst new. by rewrite Hoffset, latest_with_metadata, Ho. }
  split.
  { rewrite (adv_nresumed _ _ _ _ Hadv). exact Hr. }
  intros Hpos Hbefore M HM. rewrite Hmax in HM.
  apply (later_date_largest dates _ M Hpos); [|exact Hbefore|exact HM].
  destruct resume; [by apply Hbase|by left].
Qed.

(** ** The retry loop, counted *)

Lemma must_cancel_false job failures sched_args :
  must_cancel job failures sched_args = Returned false ->
  has_resuming job = true
  /\ exists d m y,
       sched_args = Some d /\ d !! "max_retries" = Some m
       /\ as_number m = Some y /\ failures < y.
Proof.
  unfold must_cancel. destruct (has_resuming job); simpl; [|discriminate].
  destruct sched_args as [d|]; simpl; [|discriminate].
  unfold getitem.
  destruct (d !! "max_retries") as [m|] eqn:Hm; [|discriminate].
  intros Hge. split; [reflexivity|]. exists d, m.
  destruct m as [|b|z|s|z]; simpl in Hge; try discriminate.
  - exists (if b then 1 else 0). repeat (split; [reflexivity|]).
    injection Hge as Hge. rewrite Z.geb_leb in Hge.
    by apply Z.leb_gt in Hge.
  - exists z. repeat (split; [reflexivity|]).
    injection Hge as Hge. rewrite Z.geb_leb in Hge.
    by apply Z.leb_gt in Hge.
Qed.

(** A run leaves the job on its backend class, identifiers, queue name
    and [retries]; it changes the record and the archive manager only. *)
Lemma run_job_frame backend_args archive_args resume j w :
  exists r m,
    fst (snd (run backend_args archive_args resume (j, w)))
    = with_result r (with_archive_manager m j).
Proof.
  destruct (run_frame backend_args archive_args resume j w)
    as (_ & _ & _ & m & Hj & _).
  eauto.
Qed.

(** The runs and the fetches that the loop makes: at least one run, at
    most one more for each retry that [max_retries] allows, and at most
    one fetch in each run. *)
Lemma retry_loop_runs fuel backend_args archive_args sched_args resume
    failures j w out j' w' :
  retry_loop fuel backend_args archive_args sched_args resume failures (j, w)
  = Some (out, (j', w')) ->
  exists calls fcalls,
    runs w' = runs w ++ calls
    /\ fetches w' = fetches w ++ fcalls
    /\ (1 <= length calls)%nat
    /\ (length calls <= S (retries_left sched_args (failures + 1)))%nat
    /\ (length fcalls <= length calls)%nat.
Proof.
  revert resume failures j w.
  induction fuel as [|fuel IH]; intros resume failures j w Hloop;
    [discriminate|].
  cbn [retry_loop fst snd] in Hloop.
  match type of Hloop with
  | context [run _ _ _ (j, ?w0)] =>
      pose proof (run_frame backend_args archive_args resume j w0) as Hf;
      destruct (run backend_args archive_args resume (j, w0))
        as [o [j1 w1]]
  end.
  cbn [fst snd] in Hf, Hloop.
  destruct Hf as (_ & fc & _ & _ & _ & _ & _ & Hfe & Hlen & Hr & _).
  simpl in Hfe, Hr.
  assert (Hend : forall o', Some (o', (j1, w1)) = Some (out, (j', w')) ->
    exists calls fcalls,
      runs w' = runs w ++ calls
      /\ fetches w' = fetches w ++ fcalls
      /\ (1 <= length calls)%nat
      /\ (length calls <= S (retries_left sched_args (failures + 1)))%nat
      /\ (length fcalls <= length calls)%nat).
  { intros o' ?. simplify_eq. eexists [_], fc.
    split; [exact Hr|]. split; [exact Hfe|]. simpl. lia. }
  destruct o as [[]|e]; [by eapply Hend|].
  destruct (is_attribute_error e); [by eapply Hend|].
  destruct (must_cancel j1 (failures + 1) sched_args) as [[]|] eqn:Hmc;
    [by eapply Hend| |by eapply Hend].
  destruct (must_cancel_false _ _ _ Hmc)
    as (_ & d & m & y & -> & Hm & Hy & Hlt).
  destruct (IH true (failures + 1) j1 w1 Hloop)
    as (calls & fcalls & Hr' & Hf' & Hone & Hmost & Hfb).
  eexists (_ :: calls), (fc ++ fcalls).
  split; [rewrite Hr', Hr, <- app_assoc; reflexivity|].
  split; [rewrite Hf', Hfe, <- app_assoc; reflexivity|].
  unfold retries_left in *. rewrite Hm, Hy in *. simpl in *.
  rewrite length_app. lia.
Qed.

(** X11. [execute_perceval_job] with [max_retries] a number calls [run] at
    most [max_retries] times, once when [max_retries] is below one, and
    asks Perceval for items at most once in each of these runs. *)
Theorem runs_bounded_by_max_retries rq_job_id backend backend_args qname
    task_id category archive_args sd max_retries w :
  sd !! "max_retries" = Some (VInt max_retries) ->
  exists ex calls fcalls,
    execute_perceval_job rq_job_id backend backend_args qname task_id
      category archive_args (Some sd) w = Some ex
    /\ runs (ex_world ex) = runs w ++ calls
    /\ fetches (ex_world ex) = fetches w ++ fcalls
    /\ (length calls <= Z.to_nat (Z.max 1 max_retries))%nat
    /\ (length fcalls <= length calls)%nat.
Proof.
  intros Hmax.
  destruct (execute_perceval_job_total rq_job_id backend backend_args
              qname task_id category archive_args (Some sd) w) as [ex Hex].
  exists ex. revert Hex.
  unfold execute_perceval_job, execute_perceval_job_fuel.
  destruct (PercevalJob_init _ _ _ _ _) as [j0|e].
  2: { intros ?. simplify_eq. exists [], []. simpl.
       rewrite !app_nil_r. repeat (split; [reflexivity|]). lia. }
  destruct (negb (has_archiving j0) && truthy_dict archive_args).
  { intros ?. simplify_eq. exists [], []. simpl.
    rewrite !app_nil_r. repeat (split; [reflexivity|]). lia. }
  destruct (retry_loop _ _ _ _ _ _ _) as [[out [j' w']]|] eqn:Hloop;
    [|discriminate].
  destruct (retry_loop_runs _ _ _ _ _ _ _ _ _ _ _ Hloop)
    as (calls & fcalls & Hr & Hf & _ & Hmost & Hfb).
  intros Hex. exists calls, fcalls.
  assert (ex_world ex = w') as ->
    by (destruct out; simplify_eq; reflexivity).
  split; [exact Hex|]. split; [assumption|]. split; [assumption|].
  split; [|assumption].
  unfold retries_left in Hmost. rewrite Hmax in Hmost. simpl in Hmost. lia.
Qed.

(** The loop on a backend that can resume, ended by an exception that is
    not an [AttributeError]: it has used every run that [max_retries]
    allows. *)
Lemma retry_loop_cancelled fuel backend_args archive_args sd max_retries
    resume failures j w e j' w' :
  sd !! "max_retries" = Some (VInt max_retries) ->
  has_resuming j = true ->
  retry_loop fuel backend_args archive_args (Some sd) resume failures (j, w)
  = Some (Raised e, (j', w')) ->
  is_attribute_error e = false ->
  exists calls,
    runs w' = runs w ++ calls
    /\ length calls = S (Z.to_nat (max_retries - (failures + 1))).
Proof.
  intros Hmax. revert resume failures j w.
  induction fuel as [|fuel IH]; intros resume failures j w Hres Hloop Hnot;
    [discriminate|].
  cbn [retry_loop fst snd] in Hloop.
  match type of Hloop with
  | context [run _ _ _ (j, ?w0)] =>
      pose proof (run_frame backend_args archive_args resume j w0) as Hf;
      destruct (run backend_args archive_args resume (j, w0))
        as [o [j1 w1]]
  end.
  cbn [fst snd] in Hf, Hloop.
  destruct Hf as (_ & _ & _ & m & Hj1 & _ & _ & _ & _ & Hr & _).
  simpl in Hr.
  assert (Hres1 : has_resuming j1 = true).
  { rewrite Hj1. by destruct j. }
  destruct o as [[]|e0]; [discriminate|].
  destruct (is_attribute_error e0) eqn:Hattr; [congruence|].
  unfold must_cancel in Hloop. rewrite Hres1 in Hloop.
  cbn [negb subscript] in Hloop. unfold getitem in Hloop.
  rewrite Hmax in Hloop. cbn [py_ge as_number] in Hloop.
  destruct (failures + 1 >=? max_retries) eqn:Hge.
  - simplify_eq. eexists [_]. split; [exact Hr|].
    apply Z.geb_le in Hge. simpl. lia.
  - rewrite Z.geb_leb in Hge. apply Z.leb_gt in Hge.
    destruct (IH true (failures + 1) j1 w1 Hres1 Hloop Hnot)
      as (calls & Hr' & Hlen).
    eexists (_ :: calls).
    split; [rewrite Hr', Hr, <- app_assoc; reflexivity|].
    simpl. rewrite Hlen. lia.
Qed.

(** X12. When [execute_perceval_job], on a backend that can resume and with
    [max_retries] a number, ends with an exception other than
    [AttributeError], it has called [run] exactly [max_retries] times
    (once when [max_retries] is below one): the job is not cancelled while
    a retry is left. *)
Theorem cancelled_after_max_retries rq_job_id backend k backend_args qname
    task_id category archive_args sd max_retries w ex e :
  find_backends !! backend = Some k ->
  has_resuming_flag k = true ->
  sd !! "max_retries" = Some (VInt max_retries) ->
  execute_perceval_job rq_job_id backend backend_args qname task_id
    category archive_args (Some sd) w = Some ex ->
  ex_outcome ex = Raised e ->
  is_attribute_error e = false ->
  exists calls,
    runs (ex_world ex) = runs w ++ calls
    /\ length calls = Z.to_nat (Z.max 1 max_retries).
Proof.
  intros Hk Hres Hmax.
  unfold execute_perceval_job, execute_perceval_job_fuel, PercevalJob_init.
  rewrite Hk.
  destruct (negb (has_archiving _) && truthy_dict archive_args).
  { intros Hex Hout Hnot. simplify_eq. simpl in Hout. by simplify_eq. }
  destruct (retry_loop _ _ _ _ _ _ _) as [[out [j' w']]|] eqn:Hloop;
    [|discriminate].
  intros Hex Hout Hnot.
  destruct out as [[]|e0]; simplify_eq; cbn [ex_outcome ex_world] in *;
    simplify_eq.
  eapply retry_loop_cancelled in Hloop as (calls & Hr & Hlen);
    [|exact Hmax|exact Hres|exact Hnot].
  exists calls. split; [assumption|]. rewrite Hlen. lia.
Qed.

(** X13. A failure of [run] that is not an [AttributeError], on a backend
    that can resume, makes the loop read [sched_args['max_retries']]: with
    [sched_args] left at its default [None] the loop raises [TypeError],
    with the key missing [KeyError], with a value that is not a number the
    [TypeError] of the comparison, each time in place of the exception of
    the run and without a retry. *)
Theorem failure_without_max_retries fuel backend_args archive_args sched_args
    resume failures s s' e :
  run backend_args archive_args resume
    (fst s,
     log_run {| rc_backend_args := backend_args;
                rc_contents := objs (snd s) !! backend_args;
                rc_archive_args := archive_args; rc_resume := resume |}
       (snd s))
  = (Raised e, s') ->
  is_attribute_error e = false ->
  has_resuming (fst s') = true ->
  let loop :=
    retry_loop (S fuel) backend_args archive_args sched_args resume
      failures s in
  (sched_args = None ->
   loop = Some (Raised (TypeError "'NoneType' object is not subscriptable"),
                s'))
  /\ (forall sd, sched_args = Some sd -> sd !! "max_retries" = None ->
      loop = Some (Raised (KeyError "max_retries"), s'))
  /\ (forall sd m, sched_args = Some sd -> sd !! "max_retries" = Some m ->
      as_number m = None ->
      loop = Some (Raised unorderable, s')).
Proof.
  intros Hrun Hnot Hres loop. subst loop. cbn [retry_loop].
  rewrite Hrun, Hnot. unfold must_cancel. rewrite Hres. cbn [negb].
  split; [by intros ->|]. split.
  - intros sd -> Hnone. unfold subscript, getitem. by rewrite Hnone.
  - intros sd m -> Hm Hnum. unfold subscript, getitem. rewrite Hm.
    destruct m; simpl in *; by simplify_eq.
Qed.

(** ** Fetches and resumes *)

(** A run whose archive arguments are complete either stops at the
    conversion of line 175, or makes one fetch; it is the resumed runs of
    the second kind that [nresumed] counts. *)
Lemma run_fetch_count backend_args archive_args resume j w d :
  objs w !! backend_args = Some d ->
  archive_complete archive_args ->
  let s' := snd (run backend_args archive_args resume (j, w)) in
  exists fcalls,
    fetches (snd s') = fetches w ++ fcalls
    /\ Z.of_nat (length fcalls)
       = nresumed (_result (fst s'))
         - (if resume then nresumed (_result j) else -1).
Proof.
  intros Hd [Hready Hkeys] s'. subst s'.
  assert (Hcases :
    (exists e, resume = true /\ truthy (max_date (_result j)) = true
               /\ unixtime_to_datetime (max_date (_result j)) = Raised e)
    \/ exists converted,
         resume = true -> truthy (max_date (_result j)) = true ->
         unixtime_to_datetime (max_date (_result j)) = Returned converted).
  { destruct resume; [|right; exists VNone; discriminate].
    destruct (truthy (max_date (_result j))); [|right; exists VNone; discriminate].
    destruct (unixtime_to_datetime (max_date (_result j))) as [c|e];
      [right; exists c; auto|left; eauto]. }
  destruct Hcases as [(e & -> & Hm & Hconv)|[converted Hconv]].
  - unfold run, bind.
    rewrite (start_conversion_failure _ _ _ _ _ _ Hd Hready Hm Hconv).
    exists []. simpl. rewrite app_nil_r. split; [reflexivity|].
    destruct j; simpl; lia.
  - rewrite (run_started _ _ _ _ _ _ converted Hd Hready Hconv).
    match goal with
    | |- context [forward_items ?a ?aa (?j1, ?w1)] =>
        destruct (forward_items_once a aa j1 w1
                    (if resume && truthy (offset (_result j))
                     then <["offset" := offset (_result j)]>
                            (if resume && truthy (max_date (_result j))
                             then <["from_date" := converted]> d else d)
                     else if resume && truthy (max_date (_result j))
                          then <["from_date" := converted]> d else d))
          as (g & c & ->); [|exact Hkeys|]
    end.
    { simpl. rewrite lookup_app_r, Nat.sub_diag by lia. reflexivity. }
    match goal with
    | |- context [for_each g process_item ?s] =>
        destruct (for_each_advances g s) as (new & Hadv & _)
    end.
    exists [c].
    rewrite (adv_fetches _ _ _ _ Hadv), (adv_nresumed _ _ _ _ Hadv).
    simpl. rewrite app_nil_r. split; [reflexivity|].
    destruct resume, j; simpl; lia.
Qed.

Lemma retry_loop_fetch_count fuel backend_args archive_args sched_args resume
    failures j w out j' w' d :
  objs w !! backend_args = Some d ->
  archive_complete archive_args ->
  retry_loop fuel backend_args archive_args sched_args resume failures (j, w)
  = Some (out, (j', w')) ->
  exists fcalls,
    fetches w' = fetches w ++ fcalls
    /\ Z.of_nat (length fcalls)
       = nresumed (_result j')
         - (if resume then nresumed (_result j) else -1).
Proof.
  intros Hd Hcomplete. revert resume failures j w Hd.
  induction fuel as [|fuel IH]; intros resume failures j w Hd Hloop;
    [discriminate|].
  cbn [retry_loop fst snd] in Hloop. rewrite Hd in Hloop.
  match type of Hloop with
  | context [run _ _ _ (j, ?w0)] =>
      pose proof (run_frame backend_args archive_args resume j w0) as Hf;
      pose proof (run_fetch_count backend_args archive_args resume j w0 d
                    Hd Hcomplete) as Hc;
      destruct (run backend_args archive_args resume (j, w0))
        as [o [j1 w1]]
  end.
  cbn [fst snd] in Hf, Hc, Hloop.
  destruct Hf as (_ & _ & extra & _ & _ & _ & _ & _ & _ & _ & Ho & _).
  destruct Hc as (fc & Hfe & Hn). simpl in Hfe, Ho.
  assert (Hend : forall o', Some (o', (j1, w1)) = Some (out, (j', w')) ->
    exists fcalls,
      fetches w' = fetches w ++ fcalls
      /\ Z.of_nat (length fcalls)
         = nresumed (_result j')
           - (if resume then nresumed (_result j) else -1)).
  { intros o' ?. simplify_eq. by exists fc. }
  destruct o as [[]|e]; [by eapply Hend|].
  destruct (is_attribute_error e); [by eapply Hend|].
  destruct (must_cancel j1 (failures + 1) sched_args) as [[]|];
    [by eapply Hend| |by eapply Hend].
  assert (Hd1 : objs w1 !! backend_args = Some d).
  { rewrite Ho. by apply lookup_app_l_Some. }
  destruct (IH true (failures + 1) j1 w1 Hd1 Hloop) as (fcalls & Hf' & Hn').
  exists (fc ++ fcalls).
  split; [rewrite Hf', Hfe, <- app_assoc; reflexivity|].
  rewrite length_app. lia.
Qed.

(** X14. With archive arguments that are complete (or none),
    [execute_perceval_job] leaves in [nresumed] the number of fetches it
    made after the first one: every resumed run that gets past the
    conversion of the stored date is counted and asks Perceval for items
    once, and no other run does. *)
Theorem nresumed_counts_resumed_fetches rq_job_id backend k backend_args
    qname task_id category archive_args sched_args w d :
  find_backends !! backend = Some k ->
  (truthy_dict archive_args = true -> has_archiving_flag k = true) ->
  objs w !! backend_args = Some d ->
  archive_complete archive_args ->
  exists ex job fcalls,
    execute_perceval_job rq_job_id backend backend_args qname task_id
      category archive_args sched_args w = Some ex
    /\ ex_job ex = Some job
    /\ fetches (ex_world ex) = fetches w ++ fcalls
    /\ Z.of_nat (length fcalls) = nresumed (_result job) + 1.
Proof.
  intros Hk Harch Hd Hcomplete.
  destruct (execute_perceval_job_total rq_job_id backend backend_args
              qname task_id category archive_args sched_args w) as [ex Hex].
  exists ex. revert Hex.
  unfold execute_perceval_job, execute_perceval_job_fuel, PercevalJob_init.
  rewrite Hk. unfold has_archiving. cbn [_bklass].
  assert (Hcheck : negb (has_archiving_flag k) && truthy_dict archive_args
                   = false).
  { destruct (truthy_dict archive_args); [|by rewrite andb_false_r].
    by rewrite Harch. }
  rewrite Hcheck.
  destruct (retry_loop _ _ _ _ _ _ _) as [[out [j' w']]|] eqn:Hloop;
    [|discriminate].
  destruct (retry_loop_fetch_count _ _ _ _ _ _ _ _ _ _ _ _ Hd Hcomplete
              Hloop) as (fcalls & Hf & Hn).
  intros Hex. exists j', fcalls.
  assert (ex_world ex = w' /\ ex_job ex = Some j') as [-> ->]
    by (destruct out; simplify_eq; split; reflexivity).
  split; [exact Hex|]. split; [reflexivity|]. split; [assumption|]. lia.
Qed.

(** ** The arguments of the fetches *)

Lemma start_args backend_args archive_args resume j w d :
  objs w !! backend_args = Some d ->
  let r := start backend_args archive_args resume (j, w) in
  fetches (snd (snd r)) = fetches w
  /\ forall args, fst r = Returned args ->
       exists d',
         objs (snd (snd r)) !! args = Some d'
         /\ (forall key, key <> "from_date" -> key <> "offset" ->
                         d' !! key = d !! key)
         /\ (resume = false -> d' = d).
Proof.
  destruct j as [k0 a b c q e f g r], w. destruct r. simpl.
  intros Hd.
  unfold start, open_archive, initialize_archive_manager, prepare, subscript.
  destruct archive_args, resume; crunch; rewrite ?alter_last.
  all: split; [reflexivity|]; intros ? ?; simplify_eq.
  all: eexists; split;
    [rewrite lookup_app_r, Nat.sub_diag by lia; reflexivity|];
    split; [intros; by rewrite ?lookup_insert_ne|];
    first [reflexivity|discriminate|done].
Qed.

(** The fetch of a run gets the caller's arguments, changed at most under
    ['from_date'] and ['offset'], and not at all by a fresh run. *)
Lemma run_fetch_args backend_args archive_args resume j w d :
  objs w !! backend_args = Some d ->
  exists fcalls,
    fetches (snd (snd (run backend_args archive_args resume (j, w))))
    = fetches w ++ fcalls
    /\ Forall (fun c =>
                 (forall key, key <> "from_date" -> key <> "offset" ->
                              fc_args c !! key = d !! key)
                 /\ (resume = false -> fc_args c = d)) fcalls.
Proof.
  intros Hd. unfold run, bind.
  destruct (start_args backend_args archive_args resume j w d Hd)
    as [Hf Hargs].
  destruct (start backend_args archive_args resume (j, w))
    as [[args|e] s1]; simpl in *.
  - destruct (Hargs args eq_refl) as (d' & Hd' & Hagree & Hfresh).
    destruct (forward_items_advances args archive_args s1)
      as (new & calls & Hadv & _ & _ & Hcalls).
    exists calls. rewrite (adv_fetches _ _ _ _ Hadv), Hf.
    split; [reflexivity|].
    eapply Forall_impl; [exact Hcalls|]. intros c Hc. simpl in Hc.
    assert (fc_args c = d') as -> by congruence. by split.
  - exists []. by rewrite app_nil_r.
Qed.

Lemma retry_loop_fetch_args fuel backend_args archive_args sched_args resume
    failures j w out j' w' d :
  objs w !! backend_args = Some d ->
  retry_loop fuel backend_args archive_args sched_args resume failures (j, w)
  = Some (out, (j', w')) ->
  exists fcalls,
    fetches w' = fetches w ++ fcalls
    /\ Forall (fun c => forall key, key <> "from_date" -> key <> "offset" ->
                                    fc_args c !! key = d !! key) fcalls.
Proof.
  revert resume failures j w.
  induction fuel as [|fuel IH]; intros resume failures j w Hd Hloop;
    [discriminate|].
  cbn [retry_loop fst snd] in Hloop. rewrite Hd in Hloop.
  match type of Hloop with
  | context [run _ _ _ (j, ?w0)] =>
      pose proof (run_frame backend_args archive_args resume j w0) as Hf;
      pose proof (run_fetch_args backend_args archive_args resume j w0 d
                    Hd) as Hc;
      destruct (run backend_args archive_args resume (j, w0))
        as [o [j1 w1]]
  end.
  cbn [fst snd] in Hf, Hc, Hloop.
  destruct Hf as (_ & _ & extra & _ & _ & _ & _ & _ & _ & _ & Ho & _).
  destruct Hc as (fc & Hfe & Hall). simpl in Hfe, Ho.
  assert (Hall' : Forall (fun c => forall key, key <> "from_date" ->
                            key <> "offset" -> fc_args c !! key = d !! key)
                    fc).
  { eapply Forall_impl; [exact Hall|]. by intros c [? _]. }
  assert (Hend : forall o', Some (o', (j1, w1)) = Some (out, (j', w')) ->
    exists fcalls,
      fetches w' = fetches w ++ fcalls
      /\ Forall (fun c => forall key, key <> "from_date" ->
                   key <> "offset" -> fc_args c !! key = d !! key) fcalls).
  { intros o' ?. simplify_eq. by exists fc. }
  destruct o as [[]|e]; [by eapply Hend|].
  destruct (is_attribute_error e); [by eapply Hend|].
  destruct (must_cancel j1 (failures + 1) sched_args) as [[]|];
    [by eapply Hend| |by eapply Hend].
  assert (Hd1 : objs w1 !! backend_args = Some d).
  { rewrite Ho. by apply lookup_app_l_Some. }
  destruct (IH true (failures + 1) j1 w1 Hd1 Hloop) as (fcalls & Hf' & Hr).
  exists (fc ++ fcalls).
  split; [rewrite Hf', Hfe, <- app_assoc; reflexivity|].
  by apply Forall_app.
Qed.

(** X15. Whatever [execute_perceval_job] hands to Perceval as arguments of
    a fetch, on the first run or on a resumed one, holds under every key
    other than ['from_date'] and ['offset'] what the caller's dictionary
    holds there: resuming changes no other argument, adds none and drops
    none. *)
Theorem fetch_args_differ_only_on_resume_keys rq_job_id backend backend_args
    qname task_id category archive_args sched_args w d :
  objs w !! backend_args = Some d ->
  exists ex fcalls,
    execute_perceval_job rq_job_id backend backend_args qname task_id
      category archive_args sched_args w = Some ex
    /\ fetches (ex_world ex) = fetches w ++ fcalls
    /\ Forall (fun c => forall key, key <> "from_date" -> key <> "offset" ->
                                    fc_args c !! key = d !! key) fcalls.
Proof.
  intros Hd.
  destruct (execute_perceval_job_total rq_job_id backend backend_args
              qname task_id category archive_args sched_args w) as [ex Hex].
  exists ex. revert Hex.
  unfold execute_perceval_job, execute_perceval_job_fuel.
  destruct (PercevalJob_init _ _ _ _ _) as [j0|e].
  2: { intros ?. simplify_eq. exists []. simpl. by rewrite app_nil_r. }
  destruct (negb (has_archiving j0) && truthy_dict archive_args).
  { intros ?. simplify_eq. exists []. simpl. by rewrite app_nil_r. }
  destruct (retry_loop _ _ _ _ _ _ _) as [[out [j' w']]|] eqn:Hloop;
    [|discriminate].
  destruct (retry_loop_fetch_args _ _ _ _ _ _ _ _ _ _ _ _ Hd Hloop)
    as (fcalls & Hf & Hall).
  intros Hex. exists fcalls.
  assert (ex_world ex = w') as ->
    by (destruct out; simplify_eq; reflexivity).
  by split.
Qed.

(** ** The identifiers of the record *)

Lemma run_identified backend_args archive_args resume j w :
  identified j ->
  identified (fst (snd (run backend_args archive_args resume (j, w)))).
Proof.
  intros (Hid & Htask & Hback & Hcat).
  destruct (run_shape backend_args archive_args resume j w)
    as [(e & j1 & w1 & -> & Hres & [m ->] & _)
       |(j1 & d & -> & [m Hj1] & Hres)]; simpl.
  - unfold identified. rewrite Hres. by destruct j.
  - destruct (forward_items_advances (length (objs w)) archive_args
                (j1, with_objs (objs w ++ [d]) w))
      as (new & calls & Hadv & _).
    unfold identified.
    rewrite (adv_job_id _ _ _ _ Hadv), (adv_task_id _ _ _ _ Hadv),
      (adv_backend _ _ _ _ Hadv), (adv_category _ _ _ _ Hadv),
      (adv_self _ _ _ _ Hadv).
    cbn [fst snd]. rewrite Hj1, Hres.
    destruct resume, j; simpl in *; by repeat split.
Qed.

Lemma retry_loop_identified fuel backend_args archive_args sched_args resume
    failures j w out j' w' :
  identified j ->
  retry_loop fuel backend_args archive_args sched_args resume failures (j, w)
  = Some (out, (j', w')) ->
  identified j' /\ exists r m, j' = with_result r (with_archive_manager m j).
Proof.
  revert resume failures j w.
  induction fuel as [|fuel IH]; intros resume failures j w Hid Hloop;
    [discriminate|].
  cbn [retry_loop fst snd] in Hloop.
  match type of Hloop with
  | context [run _ _ _ (j, ?w0)] =>
      pose proof (run_job_frame backend_args archive_args resume j w0) as Hf;
      pose proof (run_identified backend_args archive_args resume j w0 Hid)
        as Hid1;
      destruct (run backend_args archive_args resume (j, w0))
        as [o [j1 w1]]
  end.
  cbn [fst snd] in Hf, Hid1, Hloop. destruct Hf as (r & m & Hj1).
  assert (Hend : forall o', Some (o', (j1, w1)) = Some (out, (j', w')) ->
    identified j' /\ exists r m, j' = with_result r (with_archive_manager m j)).
  { intros o' ?. simplify_eq. eauto. }
  destruct o as [[]|e]; [by eapply Hend|].
  destruct (is_attribute_error e); [by eapply Hend|].
  destruct (must_cancel j1 (failures + 1) sched_args) as [[]|];
    [by eapply Hend| |by eapply Hend].
  destruct (IH true (failures + 1) j1 w1 Hid1 Hloop)
    as (Hid' & r' & m' & Hj').
  split; [assumption|]. exists r', m'. rewrite Hj', Hj1. by destruct j.
Qed.

(** X16. The record that [execute_perceval_job] returns, and the one that
    it leaves in the job when it raises after the job was built, carries
    the identifiers that the call was given: [job_id] of the RQ job,
    [task_id], [backend] and [category], whatever number of runs and
    resumes there were.  The job itself keeps its queue name, and its
    [retries] stays at zero: failures are not counted there. *)
Theorem result_keeps_identifiers rq_job_id bname backend_args qname tid cat
    archive_args sched_args w ex job :
  execute_perceval_job rq_job_id bname backend_args qname tid cat
    archive_args sched_args w = Some ex ->
  ex_job ex = Some job ->
  job_id (_result job) = rq_job_id
  /\ task_id (_result job) = tid
  /\ backend (_result job) = bname
  /\ category (_result job) = cat
  /\ qitems job = qname
  /\ retries job = 0
  /\ forall r, ex_outcome ex = Returned r -> r = _result job.
Proof.
  unfold execute_perceval_job, execute_perceval_job_fuel.
  destruct (PercevalJob_init _ _ _ _ _) as [j0|e] eqn:Hinit;
    [|intros; by simplify_eq].
  assert (Hj0 : identified j0
                /\ pj_job_id j0 = rq_job_id /\ pj_task_id j0 = tid
                /\ pj_backend j0 = bname /\ pj_category j0 = cat
                /\ qitems j0 = qname /\ retries j0 = 0).
  { unfold PercevalJob_init in Hinit.
    destruct (find_backends !! bname); simplify_eq. by repeat split. }
  destruct Hj0 as (Hid0 & H1 & H2 & H3 & H4 & H5 & H6).
  destruct (negb (has_archiving j0) && truthy_dict archive_args).
  { intros ? ?. simplify_eq. simpl in *. simplify_eq.
    destruct Hid0 as (? & ? & ? & ?).
    repeat (split; [congruence|]). discriminate. }
  destruct (retry_loop _ _ _ _ _ _ _) as [[out [j' w']]|] eqn:Hloop;
    [|discriminate].
  destruct (retry_loop_identified _ _ _ _ _ _ _ _ _ _ _ Hid0 Hloop)
    as ((Ha & Hb & Hc & Hd) & r & m & Hj').
  intros Hex Hjob.
  assert (Hsame : job = j'
                  /\ forall r0, ex_outcome ex = Returned r0 ->
                                r0 = _result j').
  { destruct out as [[]|e]; simplify_eq; simpl in *; simplify_eq;
      (split; [reflexivity|]); intros r0 Hr0; by simplify_eq. }
  destruct Hsame as [-> Hret].
  assert (Hpj : pj_job_id j' = pj_job_id j0 /\ pj_task_id j' = pj_task_id j0
                /\ pj_backend j' = pj_backend j0
                /\ pj_category j' = pj_category j0
                /\ qitems j' = qitems j0 /\ retries j' = retries j0).
  { rewrite Hj'. by destruct j0. }
  destruct Hpj as (P1 & P2 & P3 & P4 & P5 & P6).
  repeat (split; [congruence|]). exact Hret.
Qed.

(** ** Empty archive arguments *)

(** A run reads its archive arguments through their truth value first:
    empty ones are no archive arguments. *)
Lemma run_no_archive backend_args archive_args resume s :
  truthy_dict archive_args = false ->
  run backend_args archive_args resume s = run backend_args None resume s.
Proof.
  intros Hno.
  unfold run, start, open_archive, forward_items, _execute, metadata,
    execute_body.
  rewrite Hno. reflexivity.
Qed.

(** The log of [run] calls is written by the loop of
    [execute_perceval_job] and read by nothing: a run goes the same way
    whatever the log holds. *)
Lemma process_item_relog l item s :
  process_item item (fst s, with_runs l (snd s))
  = (fst (process_item item s),
     (fst (snd (process_item item s)),
      with_runs l (snd (snd (process_item item s))))).
Proof.
  destruct s as [[k0 a b c q e f g r] w]. destruct r, w.
  unfold process_item. crunch; first [reflexivity|congruence].
Qed.

Lemma for_each_relog l g s :
  for_each g process_item (fst s, with_runs l (snd s))
  = (fst (for_each g process_item s),
     (fst (snd (for_each g process_item s)),
      with_runs l (snd (snd (for_each g process_item s))))).
Proof.
  revert s. induction g as [| |item rest IH]; intros s; simpl;
    [reflexivity|reflexivity|].
  unfold bind. rewrite process_item_relog.
  destruct (process_item item s) as [[[]|e] s1]; simpl; [|reflexivity].
  apply (IH s1).
Qed.

Lemma start_relog l backend_args archive_args resume s :
  start backend_args archive_args resume (fst s, with_runs l (snd s))
  = (fst (start backend_args archive_args resume s),
     (fst (snd (start backend_args archive_args resume s)),
      with_runs l (snd (snd (start backend_args archive_args resume s))))).
Proof.
  destruct s as [[k0 a b c q e f g r] w]. destruct r, w.
  unfold start, open_archive, initialize_archive_manager, prepare, subscript.
  destruct archive_args, resume; crunch; first [reflexivity|congruence].
Qed.

Lemma execute_relog l args archive_args s :
  _execute args archive_args (fst s, with_runs l (snd s))
  = (fst (_execute args archive_args s),
     (fst (snd (_execute args archive_args s)),
      with_runs l (snd (snd (_execute args archive_args s))))).
Proof.
  destruct s as [[k0 a b c q e f g r] w]. destruct r, w.
  unfold _execute, metadata, execute_body, subscript.
  destruct archive_args; crunch; first [reflexivity|congruence].
Qed.

Lemma run_relog l backend_args archive_args resume s :
  run backend_args archive_args resume (fst s, with_runs l (snd s))
  = (fst (run backend_args archive_args resume s),
     (fst (snd (run backend_args archive_args resume s)),
      with_runs l (snd (snd (run backend_args archive_args resume s))))).
Proof.
  unfold run, forward_items, bind. rewrite start_relog.
  destruct (start backend_args archive_args resume s) as [[args|e] s1];
    cbn [fst snd]; [|reflexivity].
  rewrite execute_relog.
  destruct (_execute args archive_args s1) as [[g|e] s2];
    cbn [fst snd]; [|reflexivity].
  apply for_each_relog.
Qed.

Lemma run_relog_pair l backend_args archive_args resume j w :
  run backend_args archive_args resume (j, with_runs l w)
  = (fst (run backend_args archive_args resume (j, w)),
     (fst (snd (run backend_args archive_args resume (j, w))),
      with_runs l (snd (snd (run backend_args archive_args resume (j, w)))))).
Proof. apply (run_relog l backend_args archive_args resume (j, w)). Qed.

Lemma without_runs_with_runs l w :
  without_runs (with_runs l w) = without_runs w.
Proof. by destruct w. Qed.

(** The loop with empty archive arguments and the loop with none: the same
    outcome, the same job and, the log of [run] calls apart, the same
    world. *)
Lemma retry_loop_no_archive fuel backend_args archive_args sched_args resume
    failures j w1 w2 :
  truthy_dict archive_args = false ->
  without_runs w1 = without_runs w2 ->
  match retry_loop fuel backend_args archive_args sched_args resume failures
          (j, w1),
        retry_loop fuel backend_args None sched_args resume failures (j, w2)
  with
  | Some (o1, (j1, v1)), Some (o2, (j2, v2)) =>
      o1 = o2 /\ j1 = j2 /\ without_runs v1 = without_runs v2
  | None, None => True
  | _, _ => False
  end.
Proof.
  intros Hno. revert resume failures j w1 w2.
  induction fuel as [|fuel IH]; intros resume failures j w1 w2 Hw;
    [exact I|].
  cbn [retry_loop fst snd]. rewrite (run_no_archive _ _ _ _ Hno).
  set (c1 := {| rc_backend_args := backend_args;
                rc_contents := objs w1 !! backend_args;
                rc_archive_args := archive_args; rc_resume := resume |}).
  set (c2 := {| rc_backend_args := backend_args;
                rc_contents := objs w2 !! backend_args;
                rc_archive_args := None; rc_resume := resume |}).
  assert (H1 : log_run c1 w1 = with_runs (runs w1 ++ [c1]) (without_runs w1))
    by (by destruct w1).
  assert (H2 : log_run c2 w2 = with_runs (runs w2 ++ [c2]) (without_runs w1))
    by (rewrite Hw; by destruct w2).
  rewrite H1, H2.
  rewrite !(run_relog_pair _ backend_args None resume j (without_runs w1)).
  destruct (run backend_args None resume (j, without_runs w1))
    as [o [j1 v]]. cbn [fst snd].
  destruct o as [[]|e].
  - by rewrite !without_runs_with_runs.
  - destruct (is_attribute_error e);
      [by rewrite !without_runs_with_runs|].
    destruct (must_cancel j1 (failures + 1) sched_args) as [[]|];
      try by rewrite !without_runs_with_runs.
    apply IH. by rewrite !without_runs_with_runs.
Qed.

(** X17. Archive arguments that are empty, [{}], count as none.  [run]
    goes as it does without archive arguments, so
    [execute_perceval_job] does not reject them on a backend that cannot
    archive: it ends as the call without archive arguments does, with the
    same record, the same items in the queue and the same fetches. *)
Theorem empty_archive_args_ignored rq_job_id backend backend_args qname
    task_id category archive_args sched_args w :
  truthy_dict archive_args = false ->
  (forall resume s,
     run backend_args archive_args resume s
     = run backend_args None resume s)
  /\ exists ex ex0,
       execute_perceval_job rq_job_id backend backend_args qname task_id
         category archive_args sched_args w = Some ex
       /\ execute_perceval_job rq_job_id backend backend_args qname task_id
            category None sched_args w = Some ex0
       /\ ex_outcome ex = ex_outcome ex0
       /\ ex_job ex = ex_job ex0
       /\ objs (ex_world ex) = objs (ex_world ex0)
       /\ queue (ex_world ex) = queue (ex_world ex0)
       /\ fetches (ex_world ex) = fetches (ex_world ex0).
Proof.
  intros Hno. split; [intros; by apply run_no_archive|].
  unfold execute_perceval_job, execute_perceval_job_fuel.
  destruct (PercevalJob_init _ _ _ _ _) as [j0|e].
  2: { do 2 eexists. repeat (split; [reflexivity|]). reflexivity. }
  rewrite Hno. cbn [truthy_dict]. rewrite !andb_false_r.
  pose proof (retry_loop_no_archive (retry_fuel sched_args) backend_args
                archive_args sched_args false 0 j0 w w Hno eq_refl) as Hloop.
  pose proof (retry_loop_total (retry_fuel sched_args) backend_args
                archive_args sched_args false 0 (j0, w)
                (retry_fuel_enough sched_args)) as [r1 Hr1].
  rewrite Hr1 in Hloop |- *.
  destruct r1 as [o1 [j1 v1]].
  destruct (retry_loop (retry_fuel sched_args) backend_args None sched_args
              false 0 (j0, w)) as [[o2 [j2 v2]]|]; [|contradiction].
  destruct Hloop as (-> & -> & Hv).
  assert (Hsame : objs v1 = objs v2 /\ queue v1 = queue v2
                  /\ fetches v1 = fetches v2).
  { destruct v1, v2. unfold without_runs, with_runs in Hv. simpl in Hv.
    by simplify_eq. }
  destruct Hsame as (Ho & Hq & Hf).
  destruct o2 as [[]|e]; do 2 eexists;
    (split; [reflexivity|]); (split; [reflexivity|]); simpl;
    by repeat split.
Qed.

(** ** The whole job *)

(** X18. Over all the runs of one call of [execute_perceval_job], resumed
    ones included, the items that reached the queue went to the queue
    named in the call, behind what was there, each with the [job_id] of
    the RQ job and the version; and [nitems] of the record that the call
    leaves is their number. *)
Theorem job_queue_accounting rq_job_id bname backend_args qname tid cat
    archive_args sched_args w d ex job :
  objs w !! backend_args = Some d ->
  execute_perceval_job rq_job_id bname backend_args qname tid cat
    archive_args sched_args w = Some ex ->
  ex_job ex = Some job ->
  exists new,
    queue (ex_world ex) = queue w ++ map (pair qname) new
    /\ Forall (tagged rq_job_id) new
    /\ nitems (_result job) = Z.of_nat (length new).
Proof.
  intros Hd. unfold execute_perceval_job, execute_perceval_job_fuel.
  destruct (PercevalJob_init _ _ _ _ _) as [j0|e] eqn:Hinit;
    [|intros; by simplify_eq].
  assert (Hj0 : qitems j0 = qname /\ nitems (_result j0) = 0
                /\ pj_job_id j0 = rq_job_id).
  { unfold PercevalJob_init in Hinit.
    destruct (find_backends !! bname); by simplify_eq. }
  destruct Hj0 as (Hq0 & Hn0 & Hid0).
  destruct (negb (has_archiving j0) && truthy_dict archive_args).
  { intros ? ?. simplify_eq. simpl in *. simplify_eq.
    exists []. rewrite app_nil_r. by repeat split. }
  destruct (retry_loop _ _ _ _ _ _ _) as [[out [j' w']]|] eqn:Hloop;
    [|discriminate].
  destruct (retry_loop_frame _ _ _ _ _ _ _ _ _ _ _ _ Hd Hloop)
    as (_ & new & _ & _ & _ & _ & _ & Hq & Htag & Hn).
  intros Hex Hjob. exists new.
  assert (job = j' /\ ex_world ex = w') as [-> ->]
    by (destruct out; simplify_eq; simpl in *; by simplify_eq).
  rewrite Hq0 in Hq. rewrite Hid0 in Htag.
  split; [assumption|]. split; [assumption|].
  destruct Hn as [Hn|[_ Hn]]; lia.
Qed.

(** The runs of the loop: the first with the [resume] that the loop was
    entered with, every later one with [resume] set. *)
Lemma retry_loop_resumes fuel backend_args archive_args sched_args resume
    failures j w out j' w' :
  retry_loop fuel backend_args archive_args sched_args resume failures (j, w)
  = Some (out, (j', w')) ->
  exists rest,
    runs w'
    = runs w
      ++ {| rc_backend_args := backend_args;
            rc_contents := objs w !! backend_args;
            rc_archive_args := archive_args; rc_resume := resume |}
      :: rest
    /\ Forall (fun c => rc_backend_args c = backend_args
                        /\ rc_archive_args c = archive_args
                        /\ rc_resume c = true) rest.
Proof.
  revert resume failures j w.
  induction fuel as [|fuel IH]; intros resume failures j w Hloop;
    [discriminate|].
  cbn [retry_loop fst snd] in Hloop.
  match type of Hloop with
  | context [run _ _ _ (j, ?w0)] =>
      pose proof (run_frame backend_args archive_args resume j w0) as Hf;
      destruct (run backend_args archive_args resume (j, w0))
        as [o [j1 w1]]
  end.
  cbn [fst snd] in Hf, Hloop.
  destruct Hf as (_ & _ & _ & _ & _ & _ & _ & _ & _ & Hr & _).
  simpl in Hr.
  assert (Hend : forall o', Some (o', (j1, w1)) = Some (out, (j', w')) ->
    exists rest,
      runs w'
      = runs w
        ++ {| rc_backend_args := backend_args;
              rc_contents := objs w !! backend_args;
              rc_archive_args := archive_args; rc_resume := resume |}
        :: rest
      /\ Forall (fun c => rc_backend_args c = backend_args
                          /\ rc_archive_args c = archive_args
                          /\ rc_resume c = true) rest).
  { intros o' ?. simplify_eq. exists []. split; [exact Hr|constructor]. }
  destruct o as [[]|e]; [by eapply Hend|].
  destruct (is_attribute_error e); [by eapply Hend|].
  destruct (must_cancel j1 (failures + 1) sched_args) as [[]|];
    [by eapply Hend| |by eapply Hend].
  destruct (IH true (failures + 1) j1 w1 Hloop) as (rest & Hr' & Hall).
  eexists (_ :: rest).
  split; [rewrite Hr', Hr, <- app_assoc; reflexivity|].
  constructor; [by repeat split|assumption].
Qed.

(** X19. A call of [execute_perceval_job] on a backend that Perceval
    knows, with archive arguments only if the backend can archive, runs
    the job at least once: the first run is a fresh one ([resume] false)
    on the caller's arguments, and every run after it is a resumed one on
    the same arguments. *)
Theorem accepted_job_starts_fresh rq_job_id backend k backend_args qname
    task_id category archive_args sched_args w :
  find_backends !! backend = Some k ->
  (truthy_dict archive_args = true -> has_archiving_flag k = true) ->
  exists ex rest,
    execute_perceval_job rq_job_id backend backend_args qname task_id
      category archive_args sched_args w = Some ex
    /\ runs (ex_world ex)
       = runs w
         ++ {| rc_backend_args := backend_args;
               rc_contents := objs w !! backend_args;
               rc_archive_args := archive_args; rc_resume := false |}
         :: rest
    /\ Forall (fun c => rc_backend_args c = backend_args
                        /\ rc_archive_args c = archive_args
                        /\ rc_resume c = true) rest.
Proof.
  intros Hk Harch.
  destruct (execute_perceval_job_total rq_job_id backend backend_args
              qname task_id category archive_args sched_args w) as [ex Hex].
  exists ex. revert Hex.
  unfold execute_perceval_job, execute_perceval_job_fuel, PercevalJob_init.
  rewrite Hk. unfold has_archiving. cbn [_bklass].
  assert (Hcheck : negb (has_archiving_flag k) && truthy_dict archive_args
                   = false).
  { destruct (truthy_dict archive_args); [|by rewrite andb_false_r].
    by rewrite Harch. }
  rewrite Hcheck.
  destruct (retry_loop _ _ _ _ _ _ _) as [[out [j' w']]|] eqn:Hloop;
    [|discriminate].
  destruct (retry_loop_resumes _ _ _ _ _ _ _ _ _ _ _ Hloop)
    as (rest & Hr & Hall).
  intros Hex. exists rest.
  assert (ex_world ex = w') as ->
    by (destruct out; simplify_eq; reflexivity).
  by split.
Qed.

End Properties.

(** * The properties on sample jobs *)

Import Samples.

#[local] Existing Instance Samples.imports.

(** C4 on the code: the source [antique] yields an item dated at the epoch
    and loses its connection; the resumed run gets an item dated one second
    earlier.  After the first run [max_date] is [0]; a zero counts as no
    date at line 186, so the second run stores the earlier date and
    [max_date] goes down to [-1], also in the record that
    [execute_perceval_job] returns. *)
Theorem max_date_decreases_after_epoch :
  let first := run 0%nat None false (new_job "antique" antique, world0) in
  let second := run 0%nat None true (snd first) in
  fst first = Raised connection_lost
  /\ max_date (_result (fst (snd first))) = VInt 0
  /\ fst second = Returned tt
  /\ max_date (_result (fst (snd second))) = VInt (-1)
  /\ (ex_outcome <$>
        execute_perceval_job (VStr "job-1") "antique" 0%nat "items"
          (VStr "task-1") (VStr "commit") None three_retries world0)
     = Some (Returned
               {| job_id := VStr "job-1"; task_id := VStr "task-1";
                  backend := "antique"; category := VStr "commit";
                  last_uuid := VStr "b"; max_date := VInt (-1);
                  nitems := 2; offset := VNone; nresumed := 1 |}).
Proof. vm_compute. repeat split; reflexivity. Qed.


(** C2 as stated fails: a resumed run on the empty archive path stops at
    line 167, before line 178; [nresumed] is not incremented and the copy
    of the arguments keeps the caller's ['from_date'] and ['offset'],
    though the record holds a date and an offset. *)
Lemma resumed_run_counterexample :
  let j := used_job broken in
  let r := run 0%nat no_path true (j, world0) in
  fst r = Raised (ValueError "Archive manager path cannot be empty")
  /\ truthy (max_date (_result j)) = true
  /\ truthy (offset (_result j)) = true
  /\ nresumed (_result (fst (snd r))) <> nresumed (_result j) + 1
  /\ objs (snd (snd r)) = [caller_args; caller_args].
Proof.
  intros j r. split; [vm_compute; reflexivity|].
  split; [reflexivity|]. split; [reflexivity|].
  split; [vm_compute; discriminate | vm_compute; reflexivity].
Qed.

(** C7 as stated fails: a fresh run on the empty archive path stops at
    line 167, before line 170; the record keeps the five items, the last
    identifier, the date and the offset that it had. *)
Lemma fresh_run_counterexample :
  let j := used_job broken in
  let r := run 0%nat no_path false (j, world0) in
  fst r = Raised (ValueError "Archive manager path cannot be empty")
  /\ _result (fst (snd r)) = _result j
  /\ nitems (_result (fst (snd r))) = 5
  /\ last_uuid (_result (fst (snd r))) = VStr "e"
  /\ max_date (_result (fst (snd r))) = VInt 50
  /\ offset (_result (fst (snd r))) = VInt 9.
Proof. vm_compute. repeat split; reflexivity. Qed.

(** C8 as stated fails: with the empty archive path the job is built all
    the same, without archive manager; on a backend without archive
    [execute_perceval_job] then raises [AttributeError], not
    [ValueError], and on a backend with archive the [ValueError] comes
    from [run], which is called again until the retries are used up. *)
Lemma empty_path_counterexample :
  PercevalJob_init (VStr "job-1") (VStr "task-1") "flaky" (VStr "commit")
    "items"
  = Returned (new_job "flaky" flaky)
  /\ archive_manager_of (new_job "flaky" flaky) = None
  /\ execute_perceval_job (VStr "job-1") "flaky" 0%nat "items"
       (VStr "task-1") (VStr "commit") no_path three_retries world0
     = Some {| ex_outcome :=
                 Raised (AttributeError
                   "archive attributes set but archive is not supported");
               ex_job := Some (new_job "flaky" flaky);
               ex_world := world0 |}
  /\ (fun ex => (ex_outcome ex, length (runs (ex_world ex)))) <$>
       execute_perceval_job (VStr "job-1") "broken" 0%nat "items"
         (VStr "task-1") (VStr "commit") no_path three_retries world0
     = Some (Raised (ValueError "Archive manager path cannot be empty"),
             3%nat).
Proof. vm_compute. repeat split; reflexivity. Qed.

(** ** The theorems at sample inputs *)


Lemma archive_unsupported_rejected_witness :
  exists job,
    PercevalJob_init (VStr "job-1") (VStr "task-1") "flaky" (VStr "commit")
      "items" = Returned job
    /\ execute_perceval_job (VStr "job-1") "flaky" 0%nat "items"
         (VStr "task-1") (VStr "commit") some_path three_retries world0
       = Some {| ex_outcome :=
                   Raised (AttributeError
                     "archive attributes set but archive is not supported");
                 ex_job := Some job; ex_world := world0 |}.
Proof.
  apply (archive_unsupported_rejected (VStr "job-1") "flaky" flaky 0%nat
           "items" (VStr "task-1") (VStr "commit") some_path three_retries
           world0).
  - vm_compute; reflexivity.
  - reflexivity.
  - vm_compute; reflexivity.
Defined.

Lemma caller_arguments_untouched_witness :
  exists ex calls,
    execute_perceval_job (VStr "job-1") "flaky" 0%nat "items"
      (VStr "task-1") (VStr "commit") None three_retries world0 = Some ex
    /\ objs (ex_world ex) !! 0%nat = Some caller_args
    /\ runs (ex_world ex) = runs world0 ++ calls
    /\ Forall (fun c => rc_backend_args c = 0%nat
                        /\ rc_contents c = Some caller_args
                        /\ rc_archive_args c = None) calls.
Proof.
  apply (caller_arguments_untouched 0%nat None false
           (new_job "flaky" flaky) world0 caller_args (VStr "job-1")
           "flaky" "items" (VStr "task-1") (VStr "commit") three_retries).
  reflexivity.
Defined.

Lemma resumed_run_injects_witness :
  let j := used_job broken in
  let s' := snd (run 0%nat None true (j, world0)) in
  objs (snd s')
  = [caller_args;
     <["offset" := VInt 9]> (<["from_date" := VDatetime 50]> caller_args)]
  /\ nresumed (_result (fst s')) = 1.
Proof.
  intros j s'.
  destruct (resumed_run_injects 0%nat None j world0 caller_args
              (VDatetime 50)) as (Hobjs & Hn & _).
  - reflexivity.
  - left. reflexivity.
  - intros _. reflexivity.
  - split; [exact Hobjs | exact Hn].
Defined.

Lemma fresh_run_resets_witness :
  let j := used_job broken in
  let s' := snd (run 0%nat None false (j, world0)) in
  run 0%nat None false (j, world0)
  = run 0%nat None false (new_job "broken" broken, world0)
  /\ nresumed (_result (fst s')) = 0
  /\ objs (snd s') = [caller_args; caller_args].
Proof.
  intros j s'.
  destruct (fresh_run_resets 0%nat None j world0 caller_args)
    as (_ & Hsame & (_ & _ & _ & _ & Hn) & Hobjs & _).
  - reflexivity.
  - left. reflexivity.
  - split; [exact Hsame|]. split; [exact Hn | exact Hobjs].
Defined.

Lemma empty_archive_path_rejected_witness :
  run 0%nat no_path true (used_job broken, world0)
  = (Raised (ValueError "Archive manager path cannot be empty"),
     (used_job broken, with_objs (objs world0 ++ [caller_args]) world0)).
Proof.
  refine (proj1 (empty_archive_path_rejected 0%nat
                   (<["archive_path" := VStr EmptyString]>
                      (<["fetch_from_archive" := VBool false]> ∅))
                   true (used_job broken) world0 caller_args (VStr "job-1")
                   (VStr "task-1") "broken" (VStr "commit") "items" _ _)).
  - reflexivity.
  - vm_compute; reflexivity.
Defined.

Lemma source_failure_keeps_progress_witness :
  let r := run 0%nat None false (new_job "flaky" flaky, world0) in
  fst r = Raised connection_lost
  /\ nitems (_result (fst (snd r))) = 2
  /\ last_uuid (_result (fst (snd r))) = VStr "b"
  /\ max_date (_result (fst (snd r))) = VInt 20
  /\ offset (_result (fst (snd r))) = VNone.
Proof.
  intros r.
  destruct (source_failure_keeps_progress 0%nat None false
              (new_job "flaky" flaky) world0
              {| fc_mode := Live; fc_args := caller_args;
                 fc_manager := None |}
              [item_at "a" 10; item_at "b" 20] [10; 20] connection_lost)
    as (Hraised & Hnitems & Huuid & Hdate & Hoffset & _).
  - reflexivity.
  - reflexivity.
  - reflexivity.
  - constructor; [exists (VStr "a"); reflexivity|].
    constructor; [exists (VStr "b"); reflexivity|]. constructor.
  - constructor; [reflexivity|]. constructor; [reflexivity|]. constructor.
  - discriminate.
  - assert (Hb : item_at "b" 20 !! "uuid" = Some (VStr "b"))
      by reflexivity.
    cbn [last] in Huuid. rewrite Hb in Huuid.
    apply (inj Some) in Huuid.
    split; [exact Hraised|]. split; [exact Hnitems|].
    split; [symmetry; exact Huuid|]. split; [exact Hdate|exact Hoffset].
Defined.

(** ** The further properties at sample inputs *)

Lemma unknown_backend_not_found_witness :
  execute_perceval_job (VStr "job-1") "nope" 0%nat "items" (VStr "task-1")
    (VStr "commit") some_path three_retries world0
  = Some {| ex_outcome := Raised (NotFoundError "nope");
            ex_job := None; ex_world := world0 |}.
Proof.
  refine (proj2 (unknown_backend_not_found (VStr "job-1") "nope" 0%nat
                   "items" (VStr "task-1") (VStr "commit") some_path
                   three_retries world0 _)).
  vm_compute; reflexivity.
Defined.

Lemma archive_args_missing_key_witness :
  run 0%nat (Some no_path_key) true (used_job broken, world0)
  = (Raised (KeyError "archive_path"),
     (used_job broken, with_objs (objs world0 ++ [caller_args]) world0)).
Proof.
  refine (proj1 (archive_args_missing_key 0%nat no_path_key true
                   (used_job broken) world0 caller_args _ _) _).
  - reflexivity.
  - intros Hempty.
    apply (f_equal (fun m : dict => m !! "fetch_from_archive")) in Hempty.
    vm_compute in Hempty. discriminate.
  - vm_compute; reflexivity.
Defined.

Lemma run_is_loop_over_source_witness :
  let j1 :=
    with_result (fresh_result (used_job broken))
      (with_archive_manager (Some (ArchiveManager (VStr "/tmp/archive")))
         (used_job broken)) in
  let w1 :=
    with_fetches
      [{| fc_mode := FromArchive; fc_args := caller_args;
          fc_manager := Some (ArchiveManager (VStr "/tmp/archive")) |}]
      (with_objs [caller_args; caller_args] world0) in
  run 0%nat from_archive false (used_job broken, world0)
  = for_each
      (decorator (VStr "job-1")
         (fetch_from_archive broken 0 caller_args
            (Some (ArchiveManager (VStr "/tmp/archive"))) (VStr "commit")
            (VDatetime 0)))
      process_item (j1, w1).
Proof.
  intros j1 w1.
  refine (proj2 (run_is_loop_over_source 0%nat from_archive false
                   (used_job broken) world0 caller_args VNone _ _ _)
            (VBool true) (VDatetime 0) _ _ _ _).
  - reflexivity.
  - right. exists (VStr "/tmp/archive"). split; [vm_compute; reflexivity|].
    discriminate.
  - discriminate.
  - vm_compute; reflexivity.
  - vm_compute; reflexivity.
  - reflexivity.
  - vm_compute; reflexivity.
Defined.

Lemma resume_conversion_failure_witness :
  run 0%nat None true (misdated_job broken, world0)
  = (Raised (OtherError "InvalidDateError"),
     (with_archive_manager None (misdated_job broken),
      with_objs (objs world0 ++ [caller_args]) world0)).
Proof.
  apply (resume_conversion_failure 0%nat None (misdated_job broken) world0
           caller_args (OtherError "InvalidDateError")).
  - reflexivity.
  - left. reflexivity.
  - reflexivity.
  - reflexivity.
Defined.

Lemma last_uuid_of_last_item_witness :
  let s' := snd (run 0%nat None false (used_job steady, world0)) in
  let new :=
    map (with_metadata (VStr "job-1"))
      [item_with_offset "a" 10 3; item_with_offset "b" 30 1; item_at "c" 20]
  in
  match last new with
  | Some item => item !! "uuid" = Some (last_uuid (_result (fst s')))
  | None => last_uuid (_result (fst s')) = VNone
  end.
Proof.
  intros s' new.
  apply (last_uuid_of_last_item 0%nat None false (used_job steady) world0
           s' new).
  - vm_compute; reflexivity.
  - reflexivity.
Defined.

Lemma offset_of_latest_item_witness :
  let s' := snd (run 0%nat None true (used_job steady, world0)) in
  let new :=
    map (with_metadata (VStr "job-1"))
      [item_with_offset "a" 10 3; item_with_offset "b" 30 1; item_at "c" 20]
  in
  offset (_result (fst s')) = latest "offset" new (VInt 9).
Proof.
  intros s' new.
  apply (offset_of_latest_item 0%nat None true (used_job steady) world0
           s' new).
  - vm_compute; reflexivity.
  - reflexivity.
Defined.


Lemma runs_bounded_by_max_retries_witness :
  exists ex calls fcalls,
    execute_perceval_job (VStr "job-1") "broken" 0%nat "items"
      (VStr "task-1") (VStr "commit") None three_retries world0 = Some ex
    /\ runs (ex_world ex) = runs world0 ++ calls
    /\ fetches (ex_world ex) = fetches world0 ++ fcalls
    /\ (length calls <= Z.to_nat (Z.max 1 3))%nat
    /\ (length fcalls <= length calls)%nat.
Proof.
  apply (runs_bounded_by_max_retries (VStr "job-1") "broken" 0%nat "items"
           (VStr "task-1") (VStr "commit") None
           (<["max_retries" := VInt 3]> ∅) 3 world0).
  vm_compute; reflexivity.
Defined.

Lemma cancelled_after_max_retries_witness :
  exists ex calls,
    execute_perceval_job (VStr "job-1") "broken" 0%nat "items"
      (VStr "task-1") (VStr "commit") None three_retries world0 = Some ex
    /\ ex_outcome ex = Raised connection_lost
    /\ runs (ex_world ex) = runs world0 ++ calls
    /\ length calls = 3%nat.
Proof.
  assert (Hout :
    ex_outcome <$>
      execute_perceval_job (VStr "job-1") "broken" 0%nat "items"
        (VStr "task-1") (VStr "commit") None three_retries world0
    = Some (Raised connection_lost)) by (vm_compute; reflexivity).
  destruct (execute_perceval_job (VStr "job-1") "broken" 0%nat "items"
              (VStr "task-1") (VStr "commit") None three_retries world0)
    as [ex|] eqn:Hex; [|discriminate].
  injection Hout as Hout.
  destruct (cancelled_after_max_retries (VStr "job-1") "broken" broken
              0%nat "items" (VStr "task-1") (VStr "commit") None
              (<["max_retries" := VInt 3]> ∅) 3 world0 ex connection_lost)
    as (calls & Hruns & Hlen).
  - vm_compute; reflexivity.
  - reflexivity.
  - vm_compute; reflexivity.
  - exact Hex.
  - exact Hout.
  - reflexivity.
  - exists ex, calls. split; [reflexivity|]. split; [exact Hout|].
    split; [exact Hruns|exact Hlen].
Defined.

Lemma failure_without_max_retries_witness :
  let s := (new_job "flaky" flaky, world0) in
  let s' :=
    snd (run 0%nat None false
           (fst s,
            log_run {| rc_backend_args := 0%nat;
                       rc_contents := objs (snd s) !! 0%nat;
                       rc_archive_args := None; rc_resume := false |}
              (snd s))) in
  retry_loop 1 0%nat None None false 0 s
  = Some (Raised (TypeError "'NoneType' object is not subscriptable"), s').
Proof.
  intros s s'.
  refine (proj1 (failure_without_max_retries 0 0%nat None None false 0 s s'
                   connection_lost _ _ _) _).
  - vm_compute; reflexivity.
  - reflexivity.
  - vm_compute; reflexivity.
  - reflexivity.
Defined.

Lemma nresumed_counts_resumed_fetches_witness :
  exists ex job fcalls,
    execute_perceval_job (VStr "job-1") "flaky" 0%nat "items"
      (VStr "task-1") (VStr "commit") None three_retries world0 = Some ex
    /\ ex_job ex = Some job
    /\ fetches (ex_world ex) = fetches world0 ++ fcalls
    /\ Z.of_nat (length fcalls) = nresumed (_result job) + 1.
Proof.
  apply (nresumed_counts_resumed_fetches (VStr "job-1") "flaky" flaky 0%nat
           "items" (VStr "task-1") (VStr "commit") None three_retries world0
           caller_args).
  - vm_compute; reflexivity.
  - discriminate.
  - reflexivity.
  - split; [left; reflexivity|discriminate].
Defined.

Lemma fetch_args_differ_only_on_resume_keys_witness :
  exists ex fcalls,
    execute_perceval_job (VStr "job-1") "flaky" 0%nat "items"
      (VStr "task-1") (VStr "commit") None three_retries world0 = Some ex
    /\ fetches (ex_world ex) = fetches world0 ++ fcalls
    /\ Forall (fun c => forall key, key <> "from_date" -> key <> "offset" ->
                                    fc_args c !! key = caller_args !! key)
         fcalls.
Proof.
  apply (fetch_args_differ_only_on_resume_keys (VStr "job-1") "flaky" 0%nat
           "items" (VStr "task-1") (VStr "commit") None three_retries world0
           caller_args).
  reflexivity.
Defined.

Lemma result_keeps_identifiers_witness :
  exists ex job,
    execute_perceval_job (VStr "job-1") "flaky" 0%nat "items"
      (VStr "task-1") (VStr "commit") None three_retries world0 = Some ex
    /\ ex_job ex = Some job
    /\ job_id (_result job) = VStr "job-1"
    /\ task_id (_result job) = VStr "task-1"
    /\ backend (_result job) = "flaky"
    /\ category (_result job) = VStr "commit".
Proof.
  assert (Hsome :
    is_Some
      (execute_perceval_job (VStr "job-1") "flaky" 0%nat "items"
         (VStr "task-1") (VStr "commit") None three_retries world0
       ≫= ex_job)) by (eexists; vm_compute; reflexivity).
  destruct (execute_perceval_job (VStr "job-1") "flaky" 0%nat "items"
              (VStr "task-1") (VStr "commit") None three_retries world0)
    as [ex|] eqn:Hex; [|by destruct Hsome].
  destruct Hsome as [job Hjob]. simpl in Hjob.
  destruct (result_keeps_identifiers (VStr "job-1") "flaky" 0%nat "items"
              (VStr "task-1") (VStr "commit") None three_retries world0 ex
              job Hex Hjob) as (H1 & H2 & H3 & H4 & _).
  exists ex, job. by repeat split.
Defined.

Lemma empty_archive_args_ignored_witness :
  exists ex ex0,
    execute_perceval_job (VStr "job-1") "flaky" 0%nat "items"
      (VStr "task-1") (VStr "commit") (Some ∅) three_retries world0
    = Some ex
    /\ execute_perceval_job (VStr "job-1") "flaky" 0%nat "items"
         (VStr "task-1") (VStr "commit") None three_retries world0
       = Some ex0
    /\ ex_outcome ex = ex_outcome ex0
    /\ ex_job ex = ex_job ex0
    /\ objs (ex_world ex) = objs (ex_world ex0)
    /\ queue (ex_world ex) = queue (ex_world ex0)
    /\ fetches (ex_world ex) = fetches (ex_world ex0).
Proof.
  refine (proj2 (empty_archive_args_ignored (VStr "job-1") "flaky" 0%nat
                   "items" (VStr "task-1") (VStr "commit") (Some ∅)
                   three_retries world0 _)).
  vm_compute; reflexivity.
Defined.

Lemma job_queue_accounting_witness :
  exists ex job new,
    execute_perceval_job (VStr "job-1") "flaky" 0%nat "items"
      (VStr "task-1") (VStr "commit") None three_retries world0 = Some ex
    /\ ex_job ex = Some job
    /\ queue (ex_world ex) = queue world0 ++ map (pair "items") new
    /\ Forall (tagged (VStr "job-1")) new
    /\ nitems (_result job) = Z.of_nat (length new).
Proof.
  assert (Hsome :
    is_Some
      (execute_perceval_job (VStr "job-1") "flaky" 0%nat "items"
         (VStr "task-1") (VStr "commit") None three_retries world0
       ≫= ex_job)) by (eexists; vm_compute; reflexivity).
  destruct (execute_perceval_job (VStr "job-1") "flaky" 0%nat "items"
              (VStr "task-1") (VStr "commit") None three_retries world0)
    as [ex|] eqn:Hex; [|by destruct Hsome].
  destruct Hsome as [job Hjob]. simpl in Hjob.
  destruct (job_queue_accounting (VStr "job-1") "flaky" 0%nat "items"
              (VStr "task-1") (VStr "commit") None three_retries world0
              caller_args ex job eq_refl Hex Hjob) as (new & Hq & Htag & Hn).
  exists ex, job, new. by repeat split.
Defined.

Lemma accepted_job_starts_fresh_witness :
  exists ex rest,
    execute_perceval_job (VStr "job-1") "broken" 0%nat "items"
      (VStr "task-1") (VStr "commit") some_path three_retries world0
    = Some ex
    /\ runs (ex_world ex)
       = runs world0
         ++ {| rc_backend_args := 0%nat;
               rc_contents := objs world0 !! 0%nat;
               rc_archive_args := some_path; rc_resume := false |}
         :: rest
    /\ Forall (fun c => rc_backend_args c = 0%nat
                        /\ rc_archive_args c = some_path
                        /\ rc_resume c = true) rest.
Proof.
  apply (accepted_job_starts_fresh (VStr "job-1") "broken" broken 0%nat
           "items" (VStr "task-1") (VStr "commit") some_path three_retries
           world0).
  - vm_compute; reflexivity.
  - reflexivity.
Defined.
